(** * Leave management: the record stores of [main.py]

    A shallow embedding of the employee and leave operations of
    [src/main.py], and the properties its specification states about them.

    The two JSON files and the log are explicit state; an operation is a
    computation in a state-and-exception monad [M], so that a raised
    [HTTPException] keeps whatever was written before it. *)

From stdpp Require Import base tactics option list strings pretty.
From Stdlib Require Import ZArith Lia.

Local Open Scope Z_scope.
Local Open Scope string_scope.
Local Open Scope list_scope.

(** ** Pydantic models *)

(** [class Employee(BaseModel)].  The [leaves] dict keeps its insertion
    order, as the JSON document does. *)
Record Employee := mkEmployee {
  emp_id : string;
  emp_name : string;
  mail_id : string;
  emp_role : string;
  emp_dept : string;
  date_of_joining : string;
  leaves : list (string * Z)
}.

(** The default of the [leaves] field. *)
Definition default_leaves : list (string * Z) :=
  [("sick", 24); ("casual", 12)].

(** [class Leave(BaseModel)]. *)
Record Leave := mkLeave {
  leave_id : string;
  employee_id : string;
  leave_type : string;
  from_date : string;
  to_date : string;
  leave_status : string
}.

(** The default of the [leave_status] field. *)
Definition default_leave_status : string := "Pending".

(** [leave["leave_status"] = status]: every other key keeps its value. *)
Definition set_leave_status (status : string) (leave : Leave) : Leave :=
  {| leave_id := leave_id leave;
     employee_id := employee_id leave;
     leave_type := leave_type leave;
     from_date := from_date leave;
     to_date := to_date leave;
     leave_status := status |}.

(** ** Durable storage and the log *)

(** A stored collection, as the operations are stated on it: no file, a
    file on which [json.load] raises [JSONDecodeError] (with the decoder's
    message), or a document holding an array of records.  Whatever else can
    be at the path (bytes that are not text, a document that is not an
    array) is in module [OnDisk] below. *)
Inductive file (A : Type) : Type :=
  | Absent
  | Corrupt (err : string)
  | Json (data : list A).
Arguments Absent {A}.
Arguments Corrupt {A} err.
Arguments Json {A} data.

Inductive level := INFO | WARNING | ERROR.

(** [employees.json], [leave.json] and the lines of [leaves.log] (newest
    last, without the time stamp). *)
Record world := mkWorld {
  employees_json : file Employee;
  leave_json : file Leave;
  leaves_log : list (level * string)
}.

(** The durable part of the state. *)
Definition disk (w : world) : file Employee * file Leave :=
  (employees_json w, leave_json w).

(** A file path: its name, and how the file is read and replaced. *)
Record path (A : Type) := mkPath {
  name : string;
  read : world → file A;
  write : file A → world → world
}.
Arguments name {A} p.
Arguments read {A} p w.
Arguments write {A} p f w.

Definition EMPLOYEE_FILE : path Employee :=
  {| name := "employees.json";
     read := employees_json;
     write := λ f w, {| employees_json := f;
                        leave_json := leave_json w;
                        leaves_log := leaves_log w |} |}.

Definition LEAVE_FILE : path Leave :=
  {| name := "leave.json";
     read := leave_json;
     write := λ f w, {| employees_json := employees_json w;
                        leave_json := f;
                        leaves_log := leaves_log w |} |}.

(** ** The monad of operations *)

(** [fastapi.HTTPException(status_code, detail)]. *)
Record HTTPException := mkHTTPException {
  status_code : Z;
  detail : string
}.

Inductive outcome (A : Type) : Type :=
  | Return (a : A)
  | Raise (e : HTTPException).
Arguments Return {A} a.
Arguments Raise {A} e.

Definition M (A : Type) : Type := world → outcome A * world.

Global Instance M_ret : MRet M := λ A a w, (Return a, w).

Global Instance M_bind : MBind M := λ A B f m w,
  match m w with
  | (Return a, w') => f a w'
  | (Raise e, w') => (Raise e, w')
  end.

Definition raise {A} (e : HTTPException) : M A := λ w, (Raise e, w).

Definition get_file {A} (p : path A) : M (file A) :=
  λ w, (Return (read p w), w).

Definition put_file {A} (p : path A) (f : file A) : M unit :=
  λ w, (Return tt, write p f w).

Definition log_line (lv : level) (msg : string) : M unit :=
  λ w, (Return tt, {| employees_json := employees_json w;
                      leave_json := leave_json w;
                      leaves_log := leaves_log w ++ [(lv, msg)] |}).

Definition logger_info : string → M unit := log_line INFO.
Definition logger_warning : string → M unit := log_line WARNING.
Definition logger_error : string → M unit := log_line ERROR.

(** ** Python built-ins used by the operations *)

(** [any(p(x) for x in xs)]: stops at the first hit. *)
Fixpoint any {A} (p : A → bool) (xs : list A) : bool :=
  match xs with
  | [] => false
  | x :: xs' => if p x then true else any p xs'
  end.

(** [next((x for x in xs if P x), None)].  The result is the first match
    and its position.  [json.load] builds one dict per array element, so the
    dict that [next] hands out is the very object sitting in that one slot
    of the list: the position stands for that shared object. *)
Definition next {A} (P : A → Prop) `{∀ x, Decision (P x)}
    (xs : list A) : option (nat * A) :=
  list_find P xs.

(** [[x for x in xs if p(x)]]: the loop appends each hit to the result. *)
Definition comprehension {A} (p : A → bool) (xs : list A) : list A :=
  foldl (λ acc x, if p x then acc ++ [x] else acc) [] xs.

(** [len(xs)] as a Python integer. *)
Definition len {A} (xs : list A) : Z := Z.of_nat (length xs).

(** [f"{n}"] for an integer. *)
Definition fmt (n : Z) : string := pretty n.

(** ** Values returned to the caller *)

Inductive value :=
  | Int (n : Z)
  | Str (s : string)
  | EmployeeV (e : Employee)
  | EmployeesV (es : list Employee)
  | LeavesV (ls : list Leave).

(** A returned dict literal, keys in the order written. *)
Definition response : Type := list (string * value).

(** [d[k]] on a returned dict. *)
Fixpoint dict_get (k : string) (d : response) : option value :=
  match d with
  | [] => None
  | (k', v) :: d' => if bool_decide (k' = k) then Some v else dict_get k d'
  end.

(** ** Helper functions *)

(** [load_data(file_path)], on a stored collection; [OnDisk.load_data] is
    the same function on any file. *)
Definition load_data {A} (file_path : path A) : M (list A) :=
  f ← get_file file_path;
  match f with
  | Absent => mret []
  | Corrupt e =>
      logger_error ("Error loading data from " +:+ name file_path +:+ ": " +:+ e);;
      mret []
  | Json data => mret data
  end.

(** [save_data(file_path, data)] *)
Definition save_data {A} (file_path : path A) (data : list A) : M unit :=
  put_file file_path (Json data).

(** ** Employee operations *)

(** [add_employee(employee)] *)
Definition add_employee (employee : Employee) : M response :=
  employees ← load_data EMPLOYEE_FILE;
  if any (λ e, bool_decide (emp_id e = emp_id employee)) employees then
    logger_error ("Employee " +:+ emp_id employee +:+ " already exists.");;
    raise {| status_code := 400; detail := "Employee ID already exists." |}
  else
    let employees := employees ++ [employee] in
    save_data EMPLOYEE_FILE employees;;
    logger_info ("Employee created with emp_id=" +:+ emp_id employee);;
    mret [("status_code", Int 200);
          ("message", Str "Employee created successfully")].

(** [fetch_all_employees()] *)
Definition fetch_all_employees : M response :=
  employees ← load_data EMPLOYEE_FILE;
  match employees with
  | [] =>
      logger_warning "No employees found.";;
      mret [("total_employees", Int 0); ("employees", EmployeesV [])]
  | _ :: _ =>
      logger_info ("Retrieved " +:+ fmt (len employees) +:+ " employees.");;
      mret [("status_code", Int 200);
            ("message", Str "Employee data fetched successfully");
            ("total_employees", Int (len employees));
            ("employees", EmployeesV employees)]
  end.

(** [fetch_employee_by_id(emp_id)] *)
Definition fetch_employee_by_id (emp_id0 : string) : M response :=
  employees ← load_data EMPLOYEE_FILE;
  match next (λ e, emp_id e = emp_id0) employees with
  | None =>
      logger_error ("Employee ID " +:+ emp_id0 +:+ " not found.");;
      raise {| status_code := 404; detail := "Employee not found." |}
  | Some (_, employee) =>
      logger_info ("Fetched employee data for emp_id=" +:+ emp_id0);;
      mret [("status_code", Int 200); ("employee", EmployeeV employee)]
  end.

(** ** Leave operations *)

(** [apply_employee_leave(leave)] *)
Definition apply_employee_leave (leave : Leave) : M response :=
  employees ← load_data EMPLOYEE_FILE;
  if negb (any (λ e, bool_decide (emp_id e = employee_id leave)) employees) then
    logger_error ("Employee " +:+ employee_id leave +:+ " not found.");;
    raise {| status_code := 404; detail := "Employee not found." |}
  else
    leaves ← load_data LEAVE_FILE;
    let leaves := leaves ++ [leave] in
    save_data LEAVE_FILE leaves;;
    logger_info ("Leave applied for emp_id=" +:+ employee_id leave
                 +:+ ", leave_id=" +:+ leave_id leave);;
    mret [("status_code", Int 200);
          ("message", Str "Leave applied, pending approval")].

(** [fetch_employee_leaves(emp_id)] *)
Definition fetch_employee_leaves (emp_id0 : string) : M response :=
  leaves ← load_data LEAVE_FILE;
  let emp_leaves :=
    comprehension (λ l, bool_decide (employee_id l = emp_id0)) leaves in
  logger_info ("Fetched " +:+ fmt (len emp_leaves) +:+ " leaves for emp_id="
               +:+ emp_id0);;
  mret [("status_code", Int 200);
        ("total_leaves", Int (len emp_leaves));
        ("leaves", LeavesV emp_leaves)].

(** [update_leave_status_info(leave_id, status)].  The assignment
    [leave["leave_status"] = status] goes through the object found by
    [next], that is, it changes slot [i] of [leaves]. *)
Definition update_leave_status_info (leave_id0 status : string) : M response :=
  leaves ← load_data LEAVE_FILE;
  employees ← load_data EMPLOYEE_FILE;
  match next (λ l, leave_id l = leave_id0) leaves with
  | None =>
      logger_error ("Leave ID " +:+ leave_id0 +:+ " not found.");;
      raise {| status_code := 404; detail := "Leave not found." |}
  | Some (i, leave) =>
      match next (λ e, emp_id e = employee_id leave) employees with
      | None =>
          logger_error ("Employee for leave_id " +:+ leave_id0 +:+ " not found.");;
          raise {| status_code := 404;
                   detail := "Employee not found for this leave." |}
      | Some (_, employee) =>
          let prev_status := leave_status leave in
          let leaves := <[i := set_leave_status status leave]> leaves in
          save_data LEAVE_FILE leaves;;
          logger_info ("Leave status updated to " +:+ status
                       +:+ " for leave_id=" +:+ leave_id0);;
          mret [("status_code", Int 200);
                ("message", Str ("Leave status updated to " +:+ status))]
      end
  end.

(** ** API endpoints *)

(** A request to one of the six routes. *)
Inductive request :=
  | create_employee (employee : Employee)
  | list_employees
  | get_employee (emp_id0 : string)
  | create_leave (leave : Leave)
  | list_employee_leaves (emp_id0 : string)
  | update_leave (leave_id0 status : string).

Definition serve (r : request) : M response :=
  match r with
  | create_employee employee => add_employee employee
  | list_employees => fetch_all_employees
  | get_employee emp_id0 => fetch_employee_by_id emp_id0
  | create_leave leave => apply_employee_leave leave
  | list_employee_leaves emp_id0 => fetch_employee_leaves emp_id0
  | update_leave leave_id0 status => update_leave_status_info leave_id0 status
  end.

(** ** Scenario of the specification, run on the model *)

Definition first_run : world :=
  {| employees_json := Absent; leave_json := Absent; leaves_log := [] |}.

Definition E1 : Employee :=
  mkEmployee "E1" "A" "a@x.com" "dev" "eng" "2024-01-01" default_leaves.

Definition L1 : Leave :=
  mkLeave "L1" "E1" "sick" "2024-02-01" "2024-02-02" default_leave_status.

(** ** Views of the state used in the statements *)

(** The records a file holds, as every operation sees them. *)
Definition stored {A} (f : file A) : list A :=
  match f with
  | Json data => data
  | Absent | Corrupt _ => []
  end.

(** Two states hold the same two collections. *)
Definition same_store (w1 w2 : world) : Prop :=
  stored (employees_json w1) = stored (employees_json w2) ∧
  stored (leave_json w1) = stored (leave_json w2).

(** A file that is missing or cannot be decoded, replaced by the document
    [[]]; a readable document is kept. *)
Definition as_empty {A} (f : file A) : file A :=
  match f with
  | Json data => Json data
  | Absent | Corrupt _ => Json []
  end.

Definition emptied (w : world) : world :=
  {| employees_json := as_empty (employees_json w);
     leave_json := as_empty (leave_json w);
     leaves_log := leaves_log w |}.

(** The five failures of the specification, as the code raises them. *)
Definition DuplicateIdentifier : HTTPException :=
  {| status_code := 400; detail := "Employee ID already exists." |}.
Definition NotFound : HTTPException :=
  {| status_code := 404; detail := "Employee not found." |}.
Definition EmployeeNotFound : HTTPException :=
  {| status_code := 404; detail := "Employee not found." |}.
Definition LeaveNotFound : HTTPException :=
  {| status_code := 404; detail := "Leave not found." |}.
Definition OwningEmployeeNotFound : HTTPException :=
  {| status_code := 404; detail := "Employee not found for this leave." |}.

(** [w'] differs from [w] by log lines only. *)
Definition only_logged (w w' : world) : Prop :=
  disk w' = disk w ∧ ∃ lines, leaves_log w' = leaves_log w ++ lines.

(** Concrete states used to exercise the theorems. *)
Definition E2 : Employee :=
  mkEmployee "E2" "B" "b@x.com" "qa" "eng" "2024-03-01" default_leaves.

Definition E1_again : Employee :=
  mkEmployee "E1" "Z" "z@x.com" "ops" "it" "2025-05-05" [("sick", 3)].

Definition L2 : Leave :=
  mkLeave "L2" "E2" "casual" "2024-04-01" "2024-04-03" default_leave_status.

Definition L1_twin : Leave :=
  mkLeave "L1" "E1" "casual" "2024-06-10" "2024-06-11" default_leave_status.

Definition L1_approved : Leave :=
  mkLeave "L1" "E1" "sick" "2024-02-01" "2024-02-02" "Approved".

Definition office : world :=
  {| employees_json := Json [E1; E2];
     leave_json := Json [L2; L1; L1_twin];
     leaves_log := [] |}.

(** No record for [E1] is left, the leaves of [E1] are still on file. *)
Definition orphaned : world :=
  {| employees_json := Json [E2];
     leave_json := Json [L2; L1; L1_twin];
     leaves_log := [] |}.

(** Nothing has been stored yet, and [leave.json] is not JSON. *)
Definition never_written : world :=
  {| employees_json := Absent;
     leave_json := Corrupt "Expecting value: line 1 column 1 (char 0)";
     leaves_log := [] |}.

(** ** Sequences of requests and the invariants of the two stores *)

(** Serving requests one after the other, whatever each one answers. *)
Definition serve_all (rs : list request) (w : world) : world :=
  foldl (λ w r, snd (serve r w)) w rs.


(** Every stored leave names a stored employee. *)
Definition leaves_owned (w : world) : Prop :=
  ∀ l, l ∈ stored (leave_json w) →
       ∃ e, e ∈ stored (employees_json w) ∧ emp_id e = employee_id l.

(** Two leave records that agree on every field but [leave_status]. *)
Definition same_but_status (l l' : Leave) : Prop :=
  leave_id l' = leave_id l ∧ employee_id l' = employee_id l ∧
  leave_type l' = leave_type l ∧ from_date l' = from_date l ∧
  to_date l' = to_date l.

(** [w'] holds every record of [w], in the same order and before any new
    one; employees are the same records, leaves the same up to their
    status. *)
Definition grown (w w' : world) : Prop :=
  stored (employees_json w) `prefix_of` stored (employees_json w') ∧
  ∃ kept added,
    stored (leave_json w') = kept ++ added ∧
    Forall2 same_but_status (stored (leave_json w)) kept.

(** What one route can have done to the two files. *)
Inductive effect (r : request) (w w' : world) : Prop :=
  | no_write :
      disk w' = disk w → effect r w w'
  | wrote_employee employee :
      r = create_employee employee →
      (∀ e, e ∈ stored (employees_json w) → emp_id e ≠ emp_id employee) →
      employees_json w' = Json (stored (employees_json w) ++ [employee]) →
      leave_json w' = leave_json w →
      effect r w w'
  | wrote_leave leave :
      r = create_leave leave →
      (∃ e, e ∈ stored (employees_json w) ∧ emp_id e = employee_id leave) →
      leave_json w' = Json (stored (leave_json w) ++ [leave]) →
      employees_json w' = employees_json w →
      effect r w w'
  | wrote_status id status before leave after :
      r = update_leave id status →
      stored (leave_json w) = before ++ leave :: after →
      (∀ l, l ∈ before → leave_id l ≠ id) →
      leave_id leave = id →
      (∃ e, e ∈ stored (employees_json w) ∧ emp_id e = employee_id leave) →
      leave_json w'
      = Json (before ++ set_leave_status status leave :: after) →
      employees_json w' = employees_json w →
      effect r w w'.

(** [employees.json] cannot be decoded; [leave.json] is fine. *)
Definition garbled : world :=
  {| employees_json := Corrupt "Expecting ',' delimiter: line 3 column 5";
     leave_json := Json [L2];
     leaves_log := [] |}.

(** ** [load_data] on whatever is at the path *)

(** The operations above see a file through the type [file]: absent, not
    JSON, or an array of records.  [load_data] itself runs on any file.
    This module follows it statement by statement on everything that can
    be at the path, with the Python value or the exception that
    [json.load] produces. *)
Module OnDisk.

(** A value built by [json.load]. *)
#[local] Set Warnings "-register-all".
Inductive pyobj :=
  | PyNone
  | PyBool (b : bool)
  | PyInt (n : Z)
  | PyFloat (repr : string)
  | PyStr (s : string)
  | PyList (xs : list pyobj)
  | PyDict (items : list (string * pyobj)).

(** The exceptions that opening and decoding can raise. *)
Inductive exception :=
  | FileNotFoundError (msg : string)
  | OSError (msg : string)
  | UnicodeDecodeError (msg : string)
  | JSONDecodeError (msg : string).

(** What is at a path: nothing; something that cannot be opened for
    reading (a directory, a file without permission); bytes that are not
    text in the encoding of [open(file_path, "r")]; text that is not JSON;
    a JSON document. *)
Inductive contents :=
  | Missing
  | Unopenable (msg : string)
  | Bytes_not_text (msg : string)
  | Text_not_json (msg : string)
  | Document (v : pyobj).

(** What a call of [load_data] ends with. *)
Inductive result :=
  | Returned (v : pyobj)
  | Propagated (e : exception).

(** [os.path.exists(file_path)] *)
Definition os_path_exists (c : contents) : bool :=
  match c with
  | Missing => false
  | Unopenable _ | Bytes_not_text _ | Text_not_json _ | Document _ => true
  end.

(** [with open(file_path, "r") as f: return json.load(f)].  [json.load]
    reads the whole text first, so bytes that are not text fail in the
    read, before any decoding of JSON. *)
Definition open_json_load (c : contents) : exception + pyobj :=
  match c with
  | Missing => inl (FileNotFoundError "No such file or directory")
  | Unopenable msg => inl (OSError msg)
  | Bytes_not_text msg => inl (UnicodeDecodeError msg)
  | Text_not_json msg => inl (JSONDecodeError msg)
  | Document v => inr v
  end.

(** [except (json.JSONDecodeError, FileNotFoundError) as e]: the classes
    the handler takes.  [OSError] here stands for its subclasses other
    than [FileNotFoundError]. *)
Definition handled (e : exception) : bool :=
  match e with
  | JSONDecodeError _ | FileNotFoundError _ => true
  | OSError _ | UnicodeDecodeError _ => false
  end.

(** [str(e)] *)
Definition str (e : exception) : string :=
  match e with
  | FileNotFoundError msg | OSError msg
  | UnicodeDecodeError msg | JSONDecodeError msg => msg
  end.

(** [load_data(file_path)]: the result and the lines it logs. *)
Definition load_data (file_path : string) (c : contents)
    : result * list (level * string) :=
  if negb (os_path_exists c) then (Returned (PyList []), [])
  else
    match open_json_load c with
    | inr v => (Returned v, [])
    | inl e =>
        if handled e then
          (Returned (PyList []),
           [(ERROR, "Error loading data from " +:+ file_path +:+ ": "
                    +:+ str e)])
        else (Propagated e, [])
    end.

(** [employee.dict()], and an employee record as [json.load] rebuilds it. *)
Definition dict_of_employee (e : Employee) : pyobj :=
  PyDict [("emp_id", PyStr (emp_id e));
          ("emp_name", PyStr (emp_name e));
          ("mail_id", PyStr (mail_id e));
          ("emp_role", PyStr (emp_role e));
          ("emp_dept", PyStr (emp_dept e));
          ("date_of_joining", PyStr (date_of_joining e));
          ("leaves", PyDict (prod_map id PyInt <$> leaves e))].

(** [leave.dict()]. *)
Definition dict_of_leave (l : Leave) : pyobj :=
  PyDict [("leave_id", PyStr (leave_id l));
          ("employee_id", PyStr (employee_id l));
          ("leave_type", PyStr (leave_type l));
          ("from_date", PyStr (from_date l));
          ("to_date", PyStr (to_date l));
          ("leave_status", PyStr (leave_status l))].

(** The three kinds of file that the type [file] stands for. *)
Definition of_file {A} (dict : A → pyobj) (f : file A) : contents :=
  match f with
  | Absent => Missing
  | Corrupt err => Text_not_json err
  | Json data => Document (PyList (dict <$> data))
  end.

End OnDisk.

(** * Properties *)

(** ** The built-ins *)

Section builtins.
Context {A : Type}.
Implicit Types (xs ys before after : list A) (p : A → bool).

Lemma any_true p xs : any p xs = true ↔ ∃ x, x ∈ xs ∧ p x = true.
Proof.
  induction xs as [|x xs IH]; simpl.
  - split; [discriminate|]. intros (x & Hx & _). by apply elem_of_nil in Hx.
  - destruct (p x) eqn:Hp.
    + split; [|done]. intros _. exists x. split; [left|done].
    + rewrite IH. split.
      * intros (y & Hy & Hpy). exists y. split; [by right|done].
      * intros (y & Hy & Hpy). apply elem_of_cons in Hy as [->|Hy].
        -- congruence.
        -- by exists y.
Qed.

Lemma any_false p xs : any p xs = false ↔ ∀ x, x ∈ xs → p x = false.
Proof.
  split.
  - intros Hany x Hx. destruct (p x) eqn:Hp; [|done].
    assert (any p xs = true) by (apply any_true; eauto). congruence.
  - intros Hall. destruct (any p xs) eqn:Hany; [|done].
    apply any_true in Hany as (x & Hx & Hp). rewrite (Hall x Hx) in Hp.
    discriminate.
Qed.

Lemma any_snoc p xs x : p x = true → any p (xs ++ [x]) = true.
Proof.
  intros Hp. apply any_true. exists x. split; [|done].
  apply elem_of_app. right. by left.
Qed.

Lemma any_app_l p xs ys : any p xs = true → any p (xs ++ ys) = true.
Proof.
  intros (x & Hx & Hp)%any_true. apply any_true. exists x.
  split; [|done]. apply elem_of_app. by left.
Qed.

Context (P : A → Prop) `{!∀ x, Decision (P x)}.

Lemma comprehension_acc acc xs :
  foldl (λ acc x, if bool_decide (P x) then acc ++ [x] else acc) acc xs
  = acc ++ filter P xs.
Proof.
  revert acc. induction xs as [|x xs IH]; intros acc; simpl.
  - by rewrite app_nil_r.
  - rewrite IH. case_bool_decide as HP.
    + rewrite filter_cons_True by done. by rewrite <- app_assoc.
    + by rewrite filter_cons_False.
Qed.

Lemma comprehension_filter xs :
  comprehension (λ x, bool_decide (P x)) xs = filter P xs.
Proof. unfold comprehension. by rewrite comprehension_acc. Qed.

Lemma next_None xs : (∀ x, x ∈ xs → ¬ P x) → next P xs = None.
Proof.
  intros Hno. unfold next. apply list_find_None, Forall_forall. exact Hno.
Qed.

Lemma next_first before x after :
  (∀ y, y ∈ before → ¬ P y) → P x →
  next P (before ++ x :: after) = Some (length before, x).
Proof.
  intros Hno HP. unfold next. apply list_find_Some. split_and!.
  - by apply list_lookup_middle.
  - done.
  - intros j y Hj Hlt. apply Hno. apply list_elem_of_lookup. exists j.
    by rewrite lookup_app_l in Hj.
Qed.

Lemma next_is_Some xs x : x ∈ xs → P x → is_Some (next P xs).
Proof. unfold next. apply list_find_elem_of. Qed.

Lemma insert_first before x y after :
  <[length before := y]> (before ++ x :: after) = before ++ y :: after.
Proof.
  rewrite insert_app_r_alt by lia. by rewrite Nat.sub_diag.
Qed.
End builtins.

(** ** Running the helper functions *)

Lemma only_logged_refl w : only_logged w w.
Proof. split; [done|]. exists []. by rewrite app_nil_r. Qed.

Lemma only_logged_trans w1 w2 w3 :
  only_logged w1 w2 → only_logged w2 w3 → only_logged w1 w3.
Proof.
  intros [Hd1 [l1 Hl1]] [Hd2 [l2 Hl2]]. split; [congruence|].
  exists (l1 ++ l2). by rewrite Hl2, Hl1, app_assoc.
Qed.

Lemma only_logged_employees w w' :
  only_logged w w' → employees_json w' = employees_json w.
Proof. intros [Hd _]. unfold disk in Hd. congruence. Qed.

Lemma only_logged_leaves w w' :
  only_logged w w' → leave_json w' = leave_json w.
Proof. intros [Hd _]. unfold disk in Hd. congruence. Qed.

Lemma only_logged_same_store w w' : only_logged w w' → same_store w w'.
Proof.
  intros H. split.
  - by rewrite (only_logged_employees _ _ H).
  - by rewrite (only_logged_leaves _ _ H).
Qed.

Lemma log_line_run lv msg w :
  ∃ w', log_line lv msg w = (Return tt, w') ∧ disk w' = disk w ∧
        leaves_log w' = leaves_log w ++ [(lv, msg)].
Proof. eexists. split; [reflexivity|]. done. Qed.

Lemma bind_run {A B} (m : M A) (f : A → M B) w :
  (m ≫= f) w = match m w with
               | (Return a, w') => f a w'
               | (Raise e, w') => (Raise e, w')
               end.
Proof. reflexivity. Qed.

(** [load_data] never raises: it answers the stored records and leaves
    both files as they are. *)
Lemma load_employees w :
  ∃ w', load_data EMPLOYEE_FILE w = (Return (stored (employees_json w)), w')
        ∧ only_logged w w'.
Proof.
  unfold load_data. rewrite bind_run. cbn.
  destruct (employees_json w) as [|err|data]; cbn.
  - eexists; split; [reflexivity|]. apply only_logged_refl.
  - eexists; split; [reflexivity|]. split; [done|]. by eexists.
  - eexists; split; [reflexivity|]. apply only_logged_refl.
Qed.

Lemma load_leaves w :
  ∃ w', load_data LEAVE_FILE w = (Return (stored (leave_json w)), w')
        ∧ only_logged w w'.
Proof.
  unfold load_data. rewrite bind_run. cbn.
  destruct (leave_json w) as [|err|data]; cbn.
  - eexists; split; [reflexivity|]. apply only_logged_refl.
  - eexists; split; [reflexivity|]. split; [done|]. by eexists.
  - eexists; split; [reflexivity|]. apply only_logged_refl.
Qed.

(** Replace [load_data] by what it answers in the goal. *)
Ltac load_employees_in w w' H :=
  destruct (load_employees w) as (w' & -> & H).
Ltac load_leaves_in w w' H :=
  destruct (load_leaves w) as (w' & -> & H).

(** ** The employee store *)

Lemma scan_emp_id_true (employees : list Employee) (id : string) :
  any (λ e, bool_decide (emp_id e = id)) employees = true
  ↔ ∃ e, e ∈ employees ∧ emp_id e = id.
Proof.
  rewrite any_true. split; intros (e & He & Hid); exists e; split; try done.
  - by apply bool_decide_eq_true in Hid.
  - by apply bool_decide_eq_true.
Qed.

Lemma scan_emp_id_false (employees : list Employee) (id : string) :
  any (λ e, bool_decide (emp_id e = id)) employees = false
  ↔ ∀ e, e ∈ employees → emp_id e ≠ id.
Proof.
  rewrite any_false. split; intros H e He.
  - eapply bool_decide_eq_false_1, H, He.
  - apply bool_decide_eq_false_2, H, He.
Qed.

Lemma add_employee_duplicate employee w :
  (∃ e, e ∈ stored (employees_json w) ∧ emp_id e = emp_id employee) →
  ∃ w', add_employee employee w = (Raise DuplicateIdentifier, w') ∧
        disk w' = disk w ∧
        last (leaves_log w')
        = Some (ERROR, "Employee " +:+ emp_id employee +:+ " already exists.").
Proof.
  intros Hdup%scan_emp_id_true. unfold add_employee. rewrite bind_run.
  load_employees_in w w1 H1. rewrite Hdup. cbn.
  eexists. split; [reflexivity|]. cbn. split; [apply H1|].
  by rewrite last_snoc.
Qed.

Lemma add_employee_fresh employee w :
  (∀ e, e ∈ stored (employees_json w) → emp_id e ≠ emp_id employee) →
  ∃ w', add_employee employee w
        = (Return [("status_code", Int 200);
                   ("message", Str "Employee created successfully")], w') ∧
        employees_json w' = Json (stored (employees_json w) ++ [employee]) ∧
        leave_json w' = leave_json w.
Proof.
  intros Hfresh%scan_emp_id_false. unfold add_employee. rewrite bind_run.
  load_employees_in w w1 H1. rewrite Hfresh. cbn.
  eexists. split; [reflexivity|]. cbn. split; [done|].
  by apply only_logged_leaves.
Qed.


Lemma fetch_all_employees_run w :
  ∃ w', fetch_all_employees w
        = (Return (match stored (employees_json w) with
                   | [] => [("total_employees", Int 0);
                            ("employees", EmployeesV [])]
                   | _ :: _ =>
                       [("status_code", Int 200);
                        ("message", Str "Employee data fetched successfully");
                        ("total_employees",
                         Int (len (stored (employees_json w))));
                        ("employees", EmployeesV (stored (employees_json w)))]
                   end), w') ∧
        only_logged w w'.
Proof.
  unfold fetch_all_employees. rewrite bind_run. load_employees_in w w1 H1.
  destruct (stored (employees_json w)) as [|e es]; cbn.
  - eexists. split; [reflexivity|].
    eapply only_logged_trans; [exact H1|]. split; [done|]. by eexists.
  - eexists. split; [reflexivity|].
    eapply only_logged_trans; [exact H1|]. split; [done|]. by eexists.
Qed.

Lemma fetch_employee_by_id_missing id w :
  (∀ e, e ∈ stored (employees_json w) → emp_id e ≠ id) →
  ∃ w', fetch_employee_by_id id w = (Raise NotFound, w') ∧
        disk w' = disk w ∧
        last (leaves_log w')
        = Some (ERROR, "Employee ID " +:+ id +:+ " not found.").
Proof.
  intros Hno. unfold fetch_employee_by_id. rewrite bind_run.
  load_employees_in w w1 H1.
  rewrite (next_None (λ e, emp_id e = id)) by exact Hno. cbn.
  eexists. split; [reflexivity|]. cbn. split; [apply H1|].
  by rewrite last_snoc.
Qed.

Lemma fetch_employee_by_id_found id w :
  (∃ e, e ∈ stored (employees_json w) ∧ emp_id e = id) →
  ∃ e w', fetch_employee_by_id id w
          = (Return [("status_code", Int 200); ("employee", EmployeeV e)], w')
          ∧ e ∈ stored (employees_json w) ∧ emp_id e = id
          ∧ only_logged w w'.
Proof.
  intros (e & He & Hid). unfold fetch_employee_by_id. rewrite bind_run.
  load_employees_in w w1 H1.
  destruct (next_is_Some (λ e, emp_id e = id) _ e He Hid) as [[i e'] Hnext].
  rewrite Hnext. cbn. unfold next in Hnext.
  apply list_find_Some in Hnext as (Hi & Hid' & _).
  exists e'. eexists. split; [reflexivity|]. split_and!; [|done|].
  - apply list_elem_of_lookup. by exists i.
  - eapply only_logged_trans; [exact H1|]. split; [done|]. by eexists.
Qed.

(** ** The leave store *)

Lemma apply_employee_leave_missing leave w :
  (∀ e, e ∈ stored (employees_json w) → emp_id e ≠ employee_id leave) →
  ∃ w', apply_employee_leave leave w = (Raise EmployeeNotFound, w') ∧
        disk w' = disk w ∧
        last (leaves_log w')
        = Some (ERROR, "Employee " +:+ employee_id leave +:+ " not found.").
Proof.
  intros Hno%scan_emp_id_false. unfold apply_employee_leave.
  rewrite bind_run. load_employees_in w w1 H1. rewrite Hno. cbn.
  eexists. split; [reflexivity|]. cbn. split; [apply H1|].
  by rewrite last_snoc.
Qed.

Lemma apply_employee_leave_ok leave w :
  (∃ e, e ∈ stored (employees_json w) ∧ emp_id e = employee_id leave) →
  ∃ w', apply_employee_leave leave w
        = (Return [("status_code", Int 200);
                   ("message", Str "Leave applied, pending approval")], w') ∧
        leave_json w' = Json (stored (leave_json w) ++ [leave]) ∧
        employees_json w' = employees_json w.
Proof.
  intros Hex%scan_emp_id_true. unfold apply_employee_leave.
  rewrite bind_run. load_employees_in w w1 H1. rewrite Hex. cbn.
  rewrite bind_run. load_leaves_in w1 w2 H2. cbn.
  eexists. split; [reflexivity|]. cbn. split.
  - by rewrite (only_logged_leaves _ _ H1).
  - rewrite (only_logged_employees _ _ H2). by apply only_logged_employees.
Qed.

Lemma fetch_employee_leaves_run id w :
  ∃ w', fetch_employee_leaves id w
        = (Return
             [("status_code", Int 200);
              ("total_leaves",
               Int (len (filter (λ l, employee_id l = id)
                                (stored (leave_json w)))));
              ("leaves",
               LeavesV (filter (λ l, employee_id l = id)
                               (stored (leave_json w))))], w') ∧
        only_logged w w'.
Proof.
  unfold fetch_employee_leaves. rewrite bind_run. load_leaves_in w w1 H1.
  rewrite (comprehension_filter (λ l, employee_id l = id)). cbn.
  eexists. split; [reflexivity|].
  eapply only_logged_trans; [exact H1|]. split; [done|]. by eexists.
Qed.

Lemma update_leave_status_info_no_leave id status w :
  (∀ l, l ∈ stored (leave_json w) → leave_id l ≠ id) →
  ∃ w', update_leave_status_info id status w = (Raise LeaveNotFound, w') ∧
        disk w' = disk w ∧
        last (leaves_log w')
        = Some (ERROR, "Leave ID " +:+ id +:+ " not found.").
Proof.
  intros Hno. unfold update_leave_status_info. rewrite bind_run.
  load_leaves_in w w1 H1. rewrite bind_run. load_employees_in w1 w2 H2.
  rewrite (next_None (λ l, leave_id l = id)) by exact Hno. cbn.
  eexists. split; [reflexivity|]. cbn. split.
  - destruct H1 as [<- _]. apply H2.
  - by rewrite last_snoc.
Qed.

Lemma update_leave_status_info_no_owner id status w before leave after :
  stored (leave_json w) = before ++ leave :: after →
  (∀ l, l ∈ before → leave_id l ≠ id) →
  leave_id leave = id →
  (∀ e, e ∈ stored (employees_json w) → emp_id e ≠ employee_id leave) →
  ∃ w', update_leave_status_info id status w
        = (Raise OwningEmployeeNotFound, w') ∧
        disk w' = disk w ∧
        last (leaves_log w')
        = Some (ERROR, "Employee for leave_id " +:+ id +:+ " not found.").
Proof.
  intros Hsplit Hbefore Hid Hno. unfold update_leave_status_info.
  rewrite bind_run. load_leaves_in w w1 H1. rewrite bind_run.
  load_employees_in w1 w2 H2. rewrite Hsplit.
  rewrite (next_first (λ l, leave_id l = id)) by done.
  rewrite (only_logged_employees _ _ H1).
  rewrite (next_None (λ e, emp_id e = employee_id leave)) by exact Hno. cbn.
  eexists. split; [reflexivity|]. cbn. split.
  - destruct H1 as [<- _]. apply H2.
  - by rewrite last_snoc.
Qed.

Lemma update_leave_status_info_ok id status w before leave after :
  stored (leave_json w) = before ++ leave :: after →
  (∀ l, l ∈ before → leave_id l ≠ id) →
  leave_id leave = id →
  (∃ e, e ∈ stored (employees_json w) ∧ emp_id e = employee_id leave) →
  ∃ w', update_leave_status_info id status w
        = (Return [("status_code", Int 200);
                   ("message", Str ("Leave status updated to " +:+ status))],
           w') ∧
        leave_json w'
        = Json (before ++ set_leave_status status leave :: after) ∧
        employees_json w' = employees_json w.
Proof.
  intros Hsplit Hbefore Hid (e & He & Hown). unfold update_leave_status_info.
  rewrite bind_run. load_leaves_in w w1 H1. rewrite bind_run.
  load_employees_in w1 w2 H2. rewrite Hsplit.
  rewrite (next_first (λ l, leave_id l = id)) by done.
  rewrite (only_logged_employees _ _ H1).
  destruct (next_is_Some (λ e, emp_id e = employee_id leave) _ e He Hown)
    as [[j e'] ->].
  cbn. eexists. split; [reflexivity|]. cbn. split.
  - by rewrite insert_first.
  - rewrite (only_logged_employees _ _ H2). by apply only_logged_employees.
Qed.

(** Any stored leave with the identifier gives the split at the first one. *)
Lemma first_leave_split (ls : list Leave) (id : string) l :
  l ∈ ls → leave_id l = id →
  ∃ before leave after,
    ls = before ++ leave :: after ∧
    (∀ l', l' ∈ before → leave_id l' ≠ id) ∧ leave_id leave = id.
Proof.
  intros Hl Hid.
  destruct (next_is_Some (λ l, leave_id l = id) ls l Hl Hid) as [[i x] Hx].
  unfold next in Hx. apply list_find_Some in Hx as (Hi & Hxid & Hleast).
  exists (take i ls), x, (drop (S i) ls). split_and!.
  - by rewrite take_drop_middle.
  - intros l' [j Hj]%list_elem_of_lookup. apply lookup_take_Some in Hj as [Hj Hlt].
    by apply (Hleast j).
  - done.
Qed.

(** ** Failures *)

Lemma leave_id_cases (ls : list Leave) (id : string) :
  (∀ l, l ∈ ls → leave_id l ≠ id) ∨
  (∃ before leave after,
     ls = before ++ leave :: after ∧
     (∀ l, l ∈ before → leave_id l ≠ id) ∧ leave_id leave = id).
Proof.
  destruct (decide (Exists (λ l, leave_id l = id) ls)) as [Hex|Hno].
  - right. apply Exists_exists in Hex as (l & Hl & Hid).
    by apply (first_leave_split ls id l).
  - left. apply not_Exists_Forall in Hno; [|apply _].
    intros l Hl. by apply (proj1 (Forall_forall _ _) Hno l).
Qed.

Lemma emp_id_cases (es : list Employee) (id : string) :
  (∀ e, e ∈ es → emp_id e ≠ id) ∨ (∃ e, e ∈ es ∧ emp_id e = id).
Proof.
  destruct (any (λ e, bool_decide (emp_id e = id)) es) eqn:Hscan.
  - right. by apply scan_emp_id_true.
  - left. by apply scan_emp_id_false.
Qed.

(** ** Missing and undecodable files *)

Lemma same_store_emptied w : same_store w (emptied w).
Proof.
  split; cbn.
  - by destruct (employees_json w).
  - by destruct (leave_json w).
Qed.

(** What a route answers, and what it leaves stored, depends on the two
    stored collections only. *)
Lemma serve_same_store (r : request) (w1 w2 : world) :
  same_store w1 w2 →
  fst (serve r w1) = fst (serve r w2) ∧
  same_store (snd (serve r w1)) (snd (serve r w2)).
Proof.
  intros [Hemps Hleaves].
  destruct r as [employee| |id|leave|id|id status]; unfold serve.
  - destruct (emp_id_cases (stored (employees_json w1)) (emp_id employee))
      as [Hfresh|Hdup].
    + destruct (add_employee_fresh employee w1 Hfresh)
        as (w1' & -> & Hemps1 & Hleaves1).
      rewrite Hemps in Hfresh.
      destruct (add_employee_fresh employee w2 Hfresh)
        as (w2' & -> & Hemps2 & Hleaves2).
      cbn. split; [done|]. split; [|congruence].
      rewrite Hemps1, Hemps2. cbn. congruence.
    + destruct (add_employee_duplicate employee w1 Hdup)
        as (w1' & -> & Hdisk1 & _).
      rewrite Hemps in Hdup.
      destruct (add_employee_duplicate employee w2 Hdup)
        as (w2' & -> & Hdisk2 & _).
      cbn. split; [done|]. unfold disk in *. split; congruence.
  - destruct (fetch_all_employees_run w1) as (w1' & -> & H1).
    destruct (fetch_all_employees_run w2) as (w2' & -> & H2).
    cbn. split; [by rewrite Hemps|].
    apply only_logged_same_store in H1 as [? ?].
    apply only_logged_same_store in H2 as [? ?]. split; congruence.
  - destruct (emp_id_cases (stored (employees_json w1)) id) as [Hno|Hex].
    + destruct (fetch_employee_by_id_missing id w1 Hno)
        as (w1' & -> & Hdisk1 & _).
      rewrite Hemps in Hno.
      destruct (fetch_employee_by_id_missing id w2 Hno)
        as (w2' & -> & Hdisk2 & _).
      cbn. split; [done|]. unfold disk in *. split; congruence.
    + unfold fetch_employee_by_id. rewrite !bind_run.
      load_employees_in w1 w1' H1. load_employees_in w2 w2' H2.
      rewrite <- Hemps.
      destruct Hex as (e0 & He0 & Hid0).
      destruct (next_is_Some (λ e, emp_id e = id) _ e0 He0 Hid0)
        as [[i e] ->].
      rewrite !bind_run. cbn. split; [done|].
      apply only_logged_same_store in H1 as [? ?].
      apply only_logged_same_store in H2 as [? ?]. split; cbn; congruence.
  - destruct (emp_id_cases (stored (employees_json w1)) (employee_id leave))
      as [Hno|Hex].
    + destruct (apply_employee_leave_missing leave w1 Hno)
        as (w1' & -> & Hdisk1 & _).
      rewrite Hemps in Hno.
      destruct (apply_employee_leave_missing leave w2 Hno)
        as (w2' & -> & Hdisk2 & _).
      cbn. split; [done|]. unfold disk in *. split; congruence.
    + destruct (apply_employee_leave_ok leave w1 Hex)
        as (w1' & -> & Hleaves1 & Hemps1).
      rewrite Hemps in Hex.
      destruct (apply_employee_leave_ok leave w2 Hex)
        as (w2' & -> & Hleaves2 & Hemps2).
      cbn. split; [done|]. split; [congruence|].
      rewrite Hleaves1, Hleaves2. cbn. congruence.
  - destruct (fetch_employee_leaves_run id w1) as (w1' & -> & H1).
    destruct (fetch_employee_leaves_run id w2) as (w2' & -> & H2).
    cbn. split; [by rewrite Hleaves|].
    apply only_logged_same_store in H1 as [? ?].
    apply only_logged_same_store in H2 as [? ?]. split; congruence.
  - destruct (leave_id_cases (stored (leave_json w1)) id)
      as [Hno|(before & leave & after & Hsplit & Hbefore & Hid)].
    + destruct (update_leave_status_info_no_leave id status w1 Hno)
        as (w1' & -> & Hdisk1 & _).
      rewrite Hleaves in Hno.
      destruct (update_leave_status_info_no_leave id status w2 Hno)
        as (w2' & -> & Hdisk2 & _).
      cbn. split; [done|]. unfold disk in *. split; congruence.
    + destruct (emp_id_cases (stored (employees_json w1)) (employee_id leave))
        as [Hnoown|Hown].
      * destruct (update_leave_status_info_no_owner id status w1
                    before leave after Hsplit Hbefore Hid Hnoown)
          as (w1' & -> & Hdisk1 & _).
        rewrite Hleaves in Hsplit. rewrite Hemps in Hnoown.
        destruct (update_leave_status_info_no_owner id status w2
                    before leave after Hsplit Hbefore Hid Hnoown)
          as (w2' & -> & Hdisk2 & _).
        cbn. split; [done|]. unfold disk in *. split; congruence.
      * destruct (update_leave_status_info_ok id status w1
                    before leave after Hsplit Hbefore Hid Hown)
          as (w1' & -> & Hleaves1 & Hemps1).
        rewrite Hleaves in Hsplit. rewrite Hemps in Hown.
        destruct (update_leave_status_info_ok id status w2
                    before leave after Hsplit Hbefore Hid Hown)
          as (w2' & -> & Hleaves2 & Hemps2).
        cbn. split; [done|]. split; [congruence|].
        by rewrite Hleaves1, Hleaves2.
Qed.

(** ** The two scenarios of the specification *)

Example scenario_approve :
  let w1 := snd (add_employee E1 first_run) in
  let w2 := snd (apply_employee_leave L1 w1) in
  let w3 := snd (update_leave_status_info "L1" "Approved" w2) in
  fst (add_employee E1 first_run)
  = Return [("status_code", Int 200);
            ("message", Str "Employee created successfully")] ∧
  leave_json w2 = Json [L1] ∧
  leave_status L1 = "Pending" ∧
  fst (fetch_employee_leaves "E1" w3)
  = Return [("status_code", Int 200);
            ("total_leaves", Int 1);
            ("leaves", LeavesV [L1_approved])].
Proof. by compute. Qed.

Example scenario_unknown_employee :
  let leave :=
    mkLeave "L1" "E999" "sick" "2024-02-01" "2024-02-02" "Pending" in
  fst (apply_employee_leave leave first_run) = Raise EmployeeNotFound ∧
  stored (leave_json (snd (apply_employee_leave leave first_run))) = [].
Proof. by compute. Qed.

(** * The claims of the specification *)

(** Decide [x ∈ l → Q x] over an explicit list [l]. *)
Ltac each_member :=
  let x := fresh "x" in
  let Hx := fresh "Hx" in
  intros x Hx;
  repeat (apply elem_of_cons in Hx as [->|Hx]; [try done|]);
  try (by apply elem_of_nil in Hx).

(** C1. [update_leave_status_info(leave_id, status)], on any stored state:
    when no stored leave has the identifier the call raises "Leave not
    found." (whatever the employee file holds, so the leave is checked
    first); when the first leave with the identifier belongs to an employee
    identifier that no stored employee has, it raises "Employee not found
    for this leave.".  Both files are the same after either failure. *)
Theorem C1_update_status_failures (w : world) (id status : string) :
  ((∀ l, l ∈ stored (leave_json w) → leave_id l ≠ id) →
   ∃ w', update_leave_status_info id status w = (Raise LeaveNotFound, w') ∧
         employees_json w' = employees_json w ∧
         leave_json w' = leave_json w)
  ∧
  (∀ before leave after,
     stored (leave_json w) = before ++ leave :: after →
     (∀ l, l ∈ before → leave_id l ≠ id) →
     leave_id leave = id →
     (∀ e, e ∈ stored (employees_json w) → emp_id e ≠ employee_id leave) →
     ∃ w', update_leave_status_info id status w
           = (Raise OwningEmployeeNotFound, w') ∧
           employees_json w' = employees_json w ∧
           leave_json w' = leave_json w)
  ∧ LeaveNotFound ≠ OwningEmployeeNotFound.
Proof.
  split_and!.
  - intros Hno.
    destruct (update_leave_status_info_no_leave id status w Hno)
      as (w' & Hrun & Hdisk & _).
    exists w'. unfold disk in Hdisk. split_and!; congruence.
  - intros before leave after Hsplit Hbefore Hid Hown.
    destruct (update_leave_status_info_no_owner id status w before leave after
                Hsplit Hbefore Hid Hown) as (w' & Hrun & Hdisk & _).
    exists w'. unfold disk in Hdisk. split_and!; congruence.
  - discriminate.
Qed.

Lemma C1_update_status_failures_witness :
  (∃ w', update_leave_status_info "L7" "Approved" office
         = (Raise LeaveNotFound, w') ∧
         employees_json w' = employees_json office ∧
         leave_json w' = leave_json office)
  ∧
  (∃ w', update_leave_status_info "L1" "Approved" orphaned
         = (Raise OwningEmployeeNotFound, w') ∧
         employees_json w' = employees_json orphaned ∧
         leave_json w' = leave_json orphaned).
Proof.
  split.
  - apply (proj1 (C1_update_status_failures office "L7" "Approved")).
    cbn. each_member.
  - apply (proj1 (proj2 (C1_update_status_failures orphaned "L1" "Approved"))
             [L2] L1 [L1_twin]).
    + reflexivity.
    + each_member.
    + reflexivity.
    + cbn. each_member.
Defined.

(** C2. When the first stored leave with the identifier exists and some
    stored employee has its [employee_id], [update_leave_status_info]
    succeeds for any status string and rewrites the leave file with that
    one record's [leave_status] replaced: the record's other five fields,
    every record before and after it, and the employee file are as they
    were. *)
Theorem C2_update_status_frame (w : world) (id status : string)
    (before : list Leave) (leave : Leave) (after : list Leave) :
  stored (leave_json w) = before ++ leave :: after →
  (∀ l, l ∈ before → leave_id l ≠ id) →
  leave_id leave = id →
  (∃ e, e ∈ stored (employees_json w) ∧ emp_id e = employee_id leave) →
  ∃ w' leave',
    update_leave_status_info id status w
    = (Return [("status_code", Int 200);
               ("message", Str ("Leave status updated to " +:+ status))], w') ∧
    leave_json w' = Json (before ++ leave' :: after) ∧
    employees_json w' = employees_json w ∧
    leave_status leave' = status ∧
    leave_id leave' = leave_id leave ∧
    employee_id leave' = employee_id leave ∧
    leave_type leave' = leave_type leave ∧
    from_date leave' = from_date leave ∧
    to_date leave' = to_date leave.
Proof.
  intros Hsplit Hbefore Hid Hown.
  destruct (update_leave_status_info_ok id status w before leave after
              Hsplit Hbefore Hid Hown) as (w' & Hrun & Hleaves & Hemps).
  exists w', (set_leave_status status leave). by split_and!.
Qed.

Lemma C2_update_status_frame_witness :
  ∃ w' leave',
    update_leave_status_info "L1" "On hold, ask again" office
    = (Return [("status_code", Int 200);
               ("message",
                Str ("Leave status updated to " +:+ "On hold, ask again"))],
       w') ∧
    leave_json w' = Json ([L2] ++ leave' :: [L1_twin]) ∧
    employees_json w' = employees_json office ∧
    leave_status leave' = "On hold, ask again" ∧
    leave_id leave' = leave_id L1 ∧
    employee_id leave' = employee_id L1 ∧
    leave_type leave' = leave_type L1 ∧
    from_date leave' = from_date L1 ∧
    to_date leave' = to_date L1.
Proof.
  apply (C2_update_status_frame office "L1" "On hold, ask again"
           [L2] L1 [L1_twin]).
  - reflexivity.
  - each_member.
  - reflexivity.
  - exists E1. split; [|reflexivity]. cbn. left.
Defined.



(** C4. [apply_employee_leave] stores the record as the caller sent it: a
    request whose [leave_status] is "Approved" is accepted for an existing
    employee, answered "Leave applied, pending approval", and stored with
    status "Approved", not "Pending". *)
Theorem C4_apply_stores_supplied_status :
  ∃ w', apply_employee_leave L1_approved (snd (add_employee E1 first_run))
        = (Return [("status_code", Int 200);
                   ("message", Str "Leave applied, pending approval")], w') ∧
        leave_json w' = Json [L1_approved] ∧
        leave_status L1_approved = "Approved" ∧
        leave_status L1_approved ≠ "Pending".
Proof.
  eexists. split_and!; [by compute|reflexivity|reflexivity|discriminate].
Qed.

(** C5. [fetch_employee_leaves(emp_id)] always answers 200 with the stored
    leaves whose [employee_id] is [emp_id], in stored order, and
    [total_leaves] is the length of that list; with no such leave the list
    is empty and the count 0.  Nothing is written to either file. *)
Theorem C5_list_for_employee (w : world) (id : string) :
  ∃ w' found,
    fetch_employee_leaves id w
    = (Return [("status_code", Int 200);
               ("total_leaves", Int (Z.of_nat (length found)));
               ("leaves", LeavesV found)], w') ∧
    found = filter (λ l, employee_id l = id) (stored (leave_json w)) ∧
    found `sublist_of` stored (leave_json w) ∧
    (∀ l, l ∈ found ↔ l ∈ stored (leave_json w) ∧ employee_id l = id) ∧
    (found = [] ↔ ∀ l, l ∈ stored (leave_json w) → employee_id l ≠ id) ∧
    disk w' = disk w.
Proof.
  destruct (fetch_employee_leaves_run id w) as (w' & Hrun & Hlog).
  exists w', (filter (λ l, employee_id l = id) (stored (leave_json w))).
  split_and!.
  - exact Hrun.
  - done.
  - apply sublist_filter.
  - intros l. rewrite list_elem_of_filter. tauto.
  - split.
    + intros Hnil l Hl Hid.
      assert (l ∈ filter (λ l, employee_id l = id) (stored (leave_json w)))
        as Hin by (by apply list_elem_of_filter).
      rewrite Hnil in Hin. by apply elem_of_nil in Hin.
    + intros Hno. apply elem_of_nil_inv. intros l [Hid Hl]%list_elem_of_filter.
      by apply (Hno l).
  - apply Hlog.
Qed.

(** C6, as the specification words it, fails: the payload of a failure
    does not determine the identifier.  No function of the exception can
    give back the identifier that [fetch_employee_by_id] was asked for. *)
Lemma C6_payload_hides_identifier :
  ¬ ∃ offender : HTTPException → string,
      ∀ id exc w',
        fetch_employee_by_id id first_run = (Raise exc, w') →
        offender exc = id.
Proof.
  intros [offender Hoff].
  assert (offender NotFound = "E7") as H7 by (eapply Hoff; by compute).
  assert (offender NotFound = "E8") as H8 by (eapply Hoff; by compute).
  rewrite H7 in H8. discriminate.
Qed.

(** C6, amended.  Whenever a route fails, it fails before anything is
    written to either file, and the exception is one of four fixed
    payloads chosen by the failing check alone: 400 "Employee ID already
    exists.", 404 "Employee not found." (for both [fetch_employee_by_id]
    and [apply_employee_leave]), 404 "Leave not found.", 404 "Employee not
    found for this leave.".  The identifier is not in the payload; the
    identifier the route looked up is in the ERROR line logged last (for a
    missing owner, the [leave_id] of the request). *)
Theorem C6_failures_fixed_payload (r : request) (w w' : world)
    (exc : HTTPException) :
  serve r w = (Raise exc, w') →
  disk w' = disk w ∧
  match r with
  | create_employee employee =>
      exc = {| status_code := 400; detail := "Employee ID already exists." |} ∧
      last (leaves_log w')
      = Some (ERROR, "Employee " +:+ emp_id employee +:+ " already exists.")
  | get_employee id =>
      exc = {| status_code := 404; detail := "Employee not found." |} ∧
      last (leaves_log w')
      = Some (ERROR, "Employee ID " +:+ id +:+ " not found.")
  | create_leave leave =>
      exc = {| status_code := 404; detail := "Employee not found." |} ∧
      last (leaves_log w')
      = Some (ERROR, "Employee " +:+ employee_id leave +:+ " not found.")
  | update_leave id _ =>
      (exc = {| status_code := 404; detail := "Leave not found." |} ∧
       last (leaves_log w')
       = Some (ERROR, "Leave ID " +:+ id +:+ " not found."))
      ∨
      (exc = {| status_code := 404;
                detail := "Employee not found for this leave." |} ∧
       last (leaves_log w')
       = Some (ERROR, "Employee for leave_id " +:+ id +:+ " not found."))
  | list_employees | list_employee_leaves _ => False
  end.
Proof.
  destruct r as [employee| |id|leave|id|id status]; intros Hrun;
    unfold serve in Hrun.
  - destruct (emp_id_cases (stored (employees_json w)) (emp_id employee))
      as [Hfresh|Hdup].
    + destruct (add_employee_fresh employee w Hfresh) as (w1 & Hrun1 & _).
      congruence.
    + destruct (add_employee_duplicate employee w Hdup)
        as (w1 & Hrun1 & Hdisk & Hlog).
      rewrite Hrun1 in Hrun. simplify_eq.
      split_and!; [unfold disk; congruence|done..].
  - destruct (fetch_all_employees_run w) as (w1 & Hrun1 & _). congruence.
  - destruct (emp_id_cases (stored (employees_json w)) id) as [Hno|Hex].
    + destruct (fetch_employee_by_id_missing id w Hno)
        as (w1 & Hrun1 & Hdisk & Hlog).
      rewrite Hrun1 in Hrun. simplify_eq.
      split_and!; [unfold disk; congruence|done..].
    + destruct (fetch_employee_by_id_found id w Hex) as (e & w1 & Hrun1 & _).
      congruence.
  - destruct (emp_id_cases (stored (employees_json w)) (employee_id leave))
      as [Hno|Hex].
    + destruct (apply_employee_leave_missing leave w Hno)
        as (w1 & Hrun1 & Hdisk & Hlog).
      rewrite Hrun1 in Hrun. simplify_eq.
      split_and!; [unfold disk; congruence|done..].
    + destruct (apply_employee_leave_ok leave w Hex) as (w1 & Hrun1 & _).
      congruence.
  - destruct (fetch_employee_leaves_run id w) as (w1 & Hrun1 & _). congruence.
  - destruct (leave_id_cases (stored (leave_json w)) id)
      as [Hno|(before & leave & after & Hsplit & Hbefore & Hid)].
    + destruct (update_leave_status_info_no_leave id status w Hno)
        as (w1 & Hrun1 & Hdisk & Hlog).
      rewrite Hrun1 in Hrun. simplify_eq.
      split; [unfold disk; congruence|]. by left.
    + destruct (emp_id_cases (stored (employees_json w)) (employee_id leave))
        as [Hnoown|Hown].
      * destruct (update_leave_status_info_no_owner id status w
                    before leave after Hsplit Hbefore Hid Hnoown)
          as (w1 & Hrun1 & Hdisk & Hlog).
        rewrite Hrun1 in Hrun. simplify_eq.
        split; [unfold disk; congruence|]. by right.
      * destruct (update_leave_status_info_ok id status w
                    before leave after Hsplit Hbefore Hid Hown)
          as (w1 & Hrun1 & _).
        congruence.
Qed.

Lemma C6_failures_fixed_payload_witness :
  disk (mkWorld (Json [E2]) (Json [L2; L1; L1_twin])
          [(ERROR, "Employee for leave_id L1 not found.")])
  = disk orphaned ∧
  ((OwningEmployeeNotFound
    = {| status_code := 404; detail := "Leave not found." |} ∧
    last [(ERROR, "Employee for leave_id L1 not found.")]
    = Some (ERROR, "Leave ID " +:+ "L1" +:+ " not found."))
   ∨
   (OwningEmployeeNotFound
    = {| status_code := 404;
         detail := "Employee not found for this leave." |} ∧
    last [(ERROR, "Employee for leave_id L1 not found.")]
    = Some (ERROR, "Employee for leave_id " +:+ "L1" +:+ " not found."))).
Proof.
  apply (C6_failures_fixed_payload (update_leave "L1" "Approved") orphaned
           (mkWorld (Json [E2]) (Json [L2; L1; L1_twin])
              [(ERROR, "Employee for leave_id L1 not found.")])
           OwningEmployeeNotFound).
  reflexivity.
Defined.

(** On the files that the type [file] stands for, [load_data] answers the
    empty list, raises nothing and writes to neither file, both for a file
    that is absent and for a file on which the JSON decoder fails.
    Consequently every route, run on a state with such files, gives the
    answer (or the failure) it gives on the state where those files hold
    the empty array, and leaves the same two collections stored. *)
Lemma absent_or_not_json_reads_empty :
  (∀ (A : Type) (file_path : path A) (w : world),
     (read file_path w = Absent ∨ ∃ err, read file_path w = Corrupt err) →
     ∃ w', load_data file_path w = (Return [], w') ∧ disk w' = disk w)
  ∧
  (∀ (r : request) (w : world),
     fst (serve r w) = fst (serve r (emptied w)) ∧
     same_store (snd (serve r w)) (snd (serve r (emptied w)))).
Proof.
  split.
  - intros A file_path w Hblank. unfold load_data. rewrite bind_run. cbn.
    destruct Hblank as [->|[err ->]]; by eexists.
  - intros r w. apply serve_same_store, same_store_emptied.
Qed.

Example absent_or_not_json_reads_empty_never_written :
  (∃ w', load_data EMPLOYEE_FILE never_written = (Return [], w') ∧
         disk w' = disk never_written)
  ∧
  (∃ w', load_data LEAVE_FILE never_written = (Return [], w') ∧
         disk w' = disk never_written)
  ∧
  fst (serve (create_leave L1) never_written)
  = fst (serve (create_leave L1) (emptied never_written)).
Proof.
  split_and!.
  - apply (proj1 absent_or_not_json_reads_empty Employee EMPLOYEE_FILE
             never_written).
    left. reflexivity.
  - apply (proj1 absent_or_not_json_reads_empty Leave LEAVE_FILE
             never_written).
    right. eexists. reflexivity.
  - apply (proj2 absent_or_not_json_reads_empty (create_leave L1)
             never_written).
Qed.

(** [load_data] as the operations see it is [OnDisk.load_data] on the
    three kinds of file that [file] stands for: the same records, the same
    log lines, and never an exception. *)
Lemma load_data_on_disk {A} (dict : A → OnDisk.pyobj) (file_path : path A)
    (w : world) :
  ∃ data lines w',
    load_data file_path w = (Return data, w') ∧
    leaves_log w' = leaves_log w ++ lines ∧
    OnDisk.load_data (name file_path) (OnDisk.of_file dict (read file_path w))
    = (OnDisk.Returned (OnDisk.PyList (dict <$> data)), lines).
Proof.
  unfold load_data. rewrite bind_run. cbn.
  destruct (read file_path w) as [|err|data]; cbn.
  - exists [], [], w. by rewrite app_nil_r.
  - by eexists [], _, _.
  - exists data, [], w. by rewrite app_nil_r.
Qed.

(** C7. [load_data] does not answer the empty list for every file that is
    corrupted.  When the bytes of the file are not text, reading them
    raises [UnicodeDecodeError] inside the [try]; the handler takes
    [JSONDecodeError] and [FileNotFoundError] only, so the exception leaves
    [load_data] and nothing is logged.  A missing file and text that is not
    JSON do give the empty list. *)
Theorem C7_undecodable_bytes_propagate (file_path msg : string) :
  OnDisk.load_data file_path (OnDisk.Bytes_not_text msg)
  = (OnDisk.Propagated (OnDisk.UnicodeDecodeError msg), []) ∧
  OnDisk.load_data file_path OnDisk.Missing
  = (OnDisk.Returned (OnDisk.PyList []), []) ∧
  OnDisk.load_data file_path (OnDisk.Text_not_json msg)
  = (OnDisk.Returned (OnDisk.PyList []),
     [(ERROR, "Error loading data from " +:+ file_path +:+ ": " +:+ msg)]) ∧
  OnDisk.load_data file_path (OnDisk.Document (OnDisk.PyList []))
  = (OnDisk.Returned (OnDisk.PyList []), []).
Proof.
  unfold OnDisk.load_data. split_and!.
  - (* the file exists, [open_json_load] raises, the handler declines *)
    change (OnDisk.handled (OnDisk.UnicodeDecodeError msg)) with false.
    reflexivity.
  - reflexivity.
  - change (OnDisk.handled (OnDisk.JSONDecodeError msg)) with true.
    reflexivity.
  - reflexivity.
Qed.

(** C8. [fetch_all_employees()] never raises.  Its answer carries the
    stored employee records, all of them and in stored order, under
    [employees], and their number under [total_employees]; on an empty
    store the answer is exactly [total_employees = 0] with an empty list. *)
Theorem C8_list_all (w : world) :
  ∃ w' r,
    fetch_all_employees w = (Return r, w') ∧
    dict_get "employees" r = Some (EmployeesV (stored (employees_json w))) ∧
    dict_get "total_employees" r
    = Some (Int (Z.of_nat (length (stored (employees_json w))))) ∧
    r = match stored (employees_json w) with
        | [] => [("total_employees", Int 0); ("employees", EmployeesV [])]
        | _ :: _ =>
            [("status_code", Int 200);
             ("message", Str "Employee data fetched successfully");
             ("total_employees",
              Int (Z.of_nat (length (stored (employees_json w)))));
             ("employees", EmployeesV (stored (employees_json w)))]
        end.
Proof.
  destruct (fetch_all_employees_run w) as (w' & Hrun & _).
  eexists w', _. split; [exact Hrun|].
  by destruct (stored (employees_json w)).
Qed.

(** C9. Two calls of [fetch_all_employees] in a row give the same answer,
    and so do two calls of [fetch_employee_leaves] with one identifier;
    after each call both files are what they were before the first. *)
Theorem C9_reads_repeatable (w : world) (id : string) :
  (∃ r w1 w2,
     fetch_all_employees w = (Return r, w1) ∧
     fetch_all_employees w1 = (Return r, w2) ∧
     disk w1 = disk w ∧ disk w2 = disk w)
  ∧
  (∃ r w1 w2,
     fetch_employee_leaves id w = (Return r, w1) ∧
     fetch_employee_leaves id w1 = (Return r, w2) ∧
     disk w1 = disk w ∧ disk w2 = disk w).
Proof.
  split.
  - destruct (fetch_all_employees_run w) as (w1 & Hrun1 & H1).
    destruct (fetch_all_employees_run w1) as (w2 & Hrun2 & H2).
    rewrite (only_logged_employees _ _ H1) in Hrun2.
    eexists _, w1, w2. split_and!; [exact Hrun1|exact Hrun2|apply H1|].
    apply (only_logged_trans _ _ _ H1 H2).
  - destruct (fetch_employee_leaves_run id w) as (w1 & Hrun1 & H1).
    destruct (fetch_employee_leaves_run id w1) as (w2 & Hrun2 & H2).
    rewrite (only_logged_leaves _ _ H1) in Hrun2.
    eexists _, w1, w2. split_and!; [exact Hrun1|exact Hrun2|apply H1|].
    apply (only_logged_trans _ _ _ H1 H2).
Qed.

(** C10. [apply_employee_leave] does not look at the stored [leave_id]s:
    applying one leave twice for an existing employee succeeds twice and
    stores the record twice.  When several stored leaves share the
    identifier, [update_leave_status_info] rewrites the first of them only:
    its [leave_status] becomes the status sent and its other fields stay,
    while a later record with the same identifier, and all others, stay as
    they are. *)
Theorem C10_duplicate_leave_ids :
  (∀ (w : world) (leave : Leave),
     (∃ e, e ∈ stored (employees_json w) ∧ emp_id e = employee_id leave) →
     ∃ r w1 w2,
       apply_employee_leave leave w = (Return r, w1) ∧
       apply_employee_leave leave w1 = (Return r, w2) ∧
       leave_json w2 = Json (stored (leave_json w) ++ [leave; leave]))
  ∧
  (∀ (w : world) (id status : string)
     (before : list Leave) (first : Leave) (between : list Leave)
     (second : Leave) (after : list Leave),
     stored (leave_json w) = before ++ first :: between ++ second :: after →
     (∀ l, l ∈ before → leave_id l ≠ id) →
     leave_id first = id →
     leave_id second = id →
     (∃ e, e ∈ stored (employees_json w) ∧ emp_id e = employee_id first) →
     ∃ r w' first',
       update_leave_status_info id status w = (Return r, w') ∧
       leave_json w' = Json (before ++ first' :: between ++ second :: after) ∧
       leave_status first' = status ∧
       leave_id first' = leave_id first ∧
       employee_id first' = employee_id first ∧
       leave_type first' = leave_type first ∧
       from_date first' = from_date first ∧
       to_date first' = to_date first).
Proof.
  split.
  - intros w leave Hown.
    destruct (apply_employee_leave_ok leave w Hown)
      as (w1 & Hrun1 & Hleaves1 & Hemps1).
    assert (∃ e, e ∈ stored (employees_json w1)
                 ∧ emp_id e = employee_id leave) as Hown1
      by (by rewrite Hemps1).
    destruct (apply_employee_leave_ok leave w1 Hown1)
      as (w2 & Hrun2 & Hleaves2 & _).
    eexists _, w1, w2. split_and!; [exact Hrun1|exact Hrun2|].
    rewrite Hleaves2, Hleaves1. cbn. by rewrite <- app_assoc.
  - intros w id status before first between second after
      Hsplit Hbefore Hfirst _ Hown.
    destruct (update_leave_status_info_ok id status w before first
                (between ++ second :: after) Hsplit Hbefore Hfirst Hown)
      as (w' & Hrun & Hleaves & _).
    eexists _, w', (set_leave_status status first).
    split; [exact Hrun|]. split; [exact Hleaves|]. by split_and!.
Qed.

Lemma C10_duplicate_leave_ids_witness :
  (∃ r w1 w2,
     apply_employee_leave L1 office = (Return r, w1) ∧
     apply_employee_leave L1 w1 = (Return r, w2) ∧
     leave_json w2 = Json (stored (leave_json office) ++ [L1; L1]))
  ∧
  (∃ r w' first',
     update_leave_status_info "L1" "Rejected" office = (Return r, w') ∧
     leave_json w' = Json ([L2] ++ first' :: [] ++ L1_twin :: []) ∧
     leave_status first' = "Rejected" ∧
     leave_id first' = leave_id L1 ∧
     employee_id first' = employee_id L1 ∧
     leave_type first' = leave_type L1 ∧
     from_date first' = from_date L1 ∧
     to_date first' = to_date L1).
Proof.
  split.
  - apply (proj1 C10_duplicate_leave_ids office L1).
    exists E1. split; [|reflexivity]. cbn. left.
  - apply (proj2 C10_duplicate_leave_ids office "L1" "Rejected"
             [L2] L1 [] L1_twin []).
    + reflexivity.
    + each_member.
    + reflexivity.
    + reflexivity.
    + exists E1. split; [|reflexivity]. cbn. left.
Defined.

(** * Further properties of the code *)

(** ** What a route does to the files *)

Lemma serve_effect (r : request) (w : world) : effect r w (snd (serve r w)).
Proof.
  destruct r as [employee| |id|leave|id|id status]; unfold serve.
  - destruct (emp_id_cases (stored (employees_json w)) (emp_id employee))
      as [Hfresh|Hdup].
    + destruct (add_employee_fresh employee w Hfresh)
        as (w' & -> & Hemps & Hleaves).
      by eapply wrote_employee.
    + destruct (add_employee_duplicate employee w Hdup) as (w' & -> & Hd & _).
      by apply no_write.
  - destruct (fetch_all_employees_run w) as (w' & -> & Hd & _).
    by apply no_write.
  - destruct (emp_id_cases (stored (employees_json w)) id) as [Hno|Hex].
    + destruct (fetch_employee_by_id_missing id w Hno) as (w' & -> & Hd & _).
      by apply no_write.
    + destruct (fetch_employee_by_id_found id w Hex)
        as (e & w' & -> & _ & _ & Hd & _).
      by apply no_write.
  - destruct (emp_id_cases (stored (employees_json w)) (employee_id leave))
      as [Hno|Hex].
    + destruct (apply_employee_leave_missing leave w Hno)
        as (w' & -> & Hd & _).
      by apply no_write.
    + destruct (apply_employee_leave_ok leave w Hex)
        as (w' & -> & Hleaves & Hemps).
      by eapply wrote_leave.
  - destruct (fetch_employee_leaves_run id w) as (w' & -> & Hd & _).
    by apply no_write.
  - destruct (leave_id_cases (stored (leave_json w)) id)
      as [Hno|(before & leave & after & Hsplit & Hbefore & Hid)].
    + destruct (update_leave_status_info_no_leave id status w Hno)
        as (w' & -> & Hd & _).
      by apply no_write.
    + destruct (emp_id_cases (stored (employees_json w)) (employee_id leave))
        as [Hnoown|Hown].
      * destruct (update_leave_status_info_no_owner id status w
                    before leave after Hsplit Hbefore Hid Hnoown)
          as (w' & -> & Hd & _).
        by apply no_write.
      * destruct (update_leave_status_info_ok id status w
                    before leave after Hsplit Hbefore Hid Hown)
          as (w' & -> & Hleaves & Hemps).
        by eapply wrote_status.
Qed.

Lemma disk_employees w w' :
  disk w' = disk w → employees_json w' = employees_json w.
Proof. unfold disk. congruence. Qed.

Lemma disk_leaves w w' : disk w' = disk w → leave_json w' = leave_json w.
Proof. unfold disk. congruence. Qed.

(** A property kept by every route is kept by every sequence of requests. *)
Lemma serve_all_keeps (P : world → Prop) :
  (∀ r w, P w → P (snd (serve r w))) →
  ∀ rs w, P w → P (serve_all rs w).
Proof.
  intros Hstep rs. unfold serve_all.
  induction rs as [|r rs IH]; intros w HP; cbn; [done|].
  apply IH, Hstep, HP.
Qed.


Lemma serve_leaves_owned r w :
  leaves_owned w → leaves_owned (snd (serve r w)).
Proof.
  unfold leaves_owned. intros Hown.
  destruct (serve_effect r w)
    as [Hd|e _ _ Hemps Hleaves|leave _ Howner Hleaves Hemps
        |id status before leave after _ Hsplit _ _ Howner Hleaves Hemps].
  - rewrite (disk_employees _ _ Hd), (disk_leaves _ _ Hd). exact Hown.
  - rewrite Hemps, Hleaves. cbn. intros l Hl.
    destruct (Hown l Hl) as (e' & He' & Hid). exists e'.
    split; [|done]. apply elem_of_app. by left.
  - rewrite Hemps, Hleaves. cbn.
    intros l [Hl|[->|Hnil%elem_of_nil]%elem_of_cons]%elem_of_app;
      [by apply Hown|done|done].
  - rewrite Hemps, Hleaves. cbn. rewrite Hsplit in Hown.
    intros l [Hl|[->|Hl]%elem_of_cons]%elem_of_app.
    + apply Hown, elem_of_app. by left.
    + exact Howner.
    + apply Hown, elem_of_app. right. by right.
Qed.

Lemma same_but_status_all (ls : list Leave) : Forall2 same_but_status ls ls.
Proof. induction ls; constructor; [by repeat split|done]. Qed.

Lemma grown_refl w : grown w w.
Proof.
  split; [done|]. exists (stored (leave_json w)), [].
  split; [by rewrite app_nil_r|apply same_but_status_all].
Qed.

Lemma grown_trans w1 w2 w3 : grown w1 w2 → grown w2 w3 → grown w1 w3.
Proof.
  intros [Hp12 (k12 & a12 & Heq12 & Hsame12)]
         [Hp23 (k23 & a23 & Heq23 & Hsame23)].
  split; [by etrans|].
  rewrite Heq12 in Hsame23.
  apply Forall2_app_inv_l in Hsame23 as (k1 & k2 & Hk1 & Hk2 & ->).
  exists k1, (k2 ++ a23). split; [by rewrite Heq23, app_assoc|].
  clear Hk2 Heq12 Heq23. revert k1 Hk1.
  induction Hsame12 as [|l l' ls ls' Hl _ IH]; intros k1 Hk1.
  - by inv Hk1.
  - inv Hk1. constructor; [|by apply IH].
    destruct Hl as (? & ? & ? & ? & ?).
    match goal with H : same_but_status l' _ |- _ =>
      destruct H as (? & ? & ? & ? & ?) end.
    repeat split; congruence.
Qed.

Lemma serve_grown r w : grown w (snd (serve r w)).
Proof.
  destruct (serve_effect r w)
    as [Hd|e _ _ Hemps Hleaves|leave _ _ Hleaves Hemps
        |id status before leave after _ Hsplit _ _ _ Hleaves Hemps].
  - unfold grown. rewrite (disk_employees _ _ Hd), (disk_leaves _ _ Hd).
    apply grown_refl.
  - unfold grown. rewrite Hemps, Hleaves. cbn. split.
    + by apply prefix_app_r.
    + exists (stored (leave_json w)), [].
      split; [by rewrite app_nil_r|apply same_but_status_all].
  - unfold grown. rewrite Hemps, Hleaves. cbn. split; [done|].
    exists (stored (leave_json w)), [leave].
    split; [done|apply same_but_status_all].
  - unfold grown. rewrite Hemps, Hleaves. cbn. split; [done|].
    exists (before ++ set_leave_status status leave :: after), [].
    split; [by rewrite app_nil_r|]. rewrite Hsplit.
    apply Forall2_app; [apply same_but_status_all|].
    constructor; [by repeat split|apply same_but_status_all].
Qed.

(** ** Invariants over any sequence of requests *)



(** X2. Referential integrity is an invariant: if every stored leave has
    the [emp_id] of a stored employee as its [employee_id], the same holds
    after any sequence of requests. *)
Theorem X2_leaves_owned_invariant (rs : list request) (w : world) :
  (∀ l, l ∈ stored (leave_json w) →
        ∃ e, e ∈ stored (employees_json w) ∧ emp_id e = employee_id l) →
  ∀ l, l ∈ stored (leave_json (serve_all rs w)) →
       ∃ e, e ∈ stored (employees_json (serve_all rs w)) ∧
            emp_id e = employee_id l.
Proof.
  intros Hown.
  apply (serve_all_keeps leaves_owned); [|exact Hown].
  intros r w0. apply serve_leaves_owned.
Qed.

Lemma X2_leaves_owned_invariant_witness :
  ∃ e, e ∈ stored (employees_json
             (serve_all [create_employee E1; create_leave L1;
                         create_leave L2; create_leave L1_twin]
                first_run)) ∧
       emp_id e = employee_id L1_twin.
Proof.
  apply (X2_leaves_owned_invariant
           [create_employee E1; create_leave L1;
            create_leave L2; create_leave L1_twin] first_run).
  - cbn. each_member.
  - cbn. right. left.
Defined.

(** X3. Starting from a state where every leave has its employee, no
    sequence of requests leads to a state where
    [update_leave_status_info] raises "Employee not found for this leave.":
    if it fails there, it fails with "Leave not found." and no stored
    leave has the identifier. *)
Theorem X3_owner_failure_unreachable (rs : list request) (w : world)
    (id status : string) (exc : HTTPException) (w' : world) :
  (∀ l, l ∈ stored (leave_json w) →
        ∃ e, e ∈ stored (employees_json w) ∧ emp_id e = employee_id l) →
  update_leave_status_info id status (serve_all rs w) = (Raise exc, w') →
  exc = {| status_code := 404; detail := "Leave not found." |} ∧
  ∀ l, l ∈ stored (leave_json (serve_all rs w)) → leave_id l ≠ id.
Proof.
  intros Hown Hrun.
  assert (leaves_owned (serve_all rs w)) as Hown'.
  { apply (serve_all_keeps leaves_owned); [|exact Hown].
    intros r w0. apply serve_leaves_owned. }
  destruct (leave_id_cases (stored (leave_json (serve_all rs w))) id)
    as [Hno|(before & leave & after & Hsplit & Hbefore & Hid)].
  - destruct (update_leave_status_info_no_leave id status _ Hno)
      as (w1 & Hrun1 & _).
    rewrite Hrun1 in Hrun. by simplify_eq.
  - assert (∃ e, e ∈ stored (employees_json (serve_all rs w))
                 ∧ emp_id e = employee_id leave) as Howner.
    { apply Hown'. rewrite Hsplit. apply elem_of_app. right. by left. }
    destruct (update_leave_status_info_ok id status _ before leave after
                Hsplit Hbefore Hid Howner) as (w1 & Hrun1 & _).
    congruence.
Qed.

Lemma X3_owner_failure_unreachable_witness :
  LeaveNotFound = {| status_code := 404; detail := "Leave not found." |} ∧
  ∀ l, l ∈ stored (leave_json
             (serve_all [create_employee E1; create_leave L1] first_run)) →
       leave_id l ≠ "L2".
Proof.
  apply (X3_owner_failure_unreachable
           [create_employee E1; create_leave L1] first_run "L2" "Approved"
           LeaveNotFound
           (mkWorld (Json [E1]) (Json [L1])
              [(INFO, "Employee created with emp_id=E1");
               (INFO, "Leave applied for emp_id=E1, leave_id=L1");
               (ERROR, "Leave ID L2 not found.")])).
  - cbn. each_member.
  - reflexivity.
Defined.

(** X4. No route removes, reorders or replaces a record: after any
    sequence of requests the stored employees start with the employees
    stored before, unchanged, and the stored leaves start with the leaves
    stored before, each the same in every field but [leave_status]. *)
Theorem X4_records_only_grow (rs : list request) (w : world) :
  stored (employees_json w)
    `prefix_of` stored (employees_json (serve_all rs w)) ∧
  ∃ kept added,
    stored (leave_json (serve_all rs w)) = kept ++ added ∧
    Forall2 same_but_status (stored (leave_json w)) kept.
Proof.
  apply (serve_all_keeps (grown w)); [|apply grown_refl].
  intros r w0 Hgrown. eapply grown_trans; [exact Hgrown|apply serve_grown].
Qed.

(** X5. Each route writes at most its own file, whether it succeeds or
    fails: [create_employee] never changes [leave.json]; [create_leave]
    and [update_leave] never change [employees.json]; the three GET
    routes change neither file. *)
Theorem X5_route_frame (r : request) (w : world) :
  match r with
  | create_employee _ => leave_json (snd (serve r w)) = leave_json w
  | create_leave _ | update_leave _ _ =>
      employees_json (snd (serve r w)) = employees_json w
  | list_employees | get_employee _ | list_employee_leaves _ =>
      disk (snd (serve r w)) = disk w
  end.
Proof.
  destruct (serve_effect r w)
    as [Hd|e -> _ _ Hleaves|leave -> _ _ Hemps
        |id status before leave after -> _ _ _ _ _ Hemps];
    [|done..].
  destruct r; first [exact Hd | by apply disk_leaves | by apply disk_employees].
Qed.

(** ** Looking an employee up *)

Lemma fetch_employee_by_id_first id w before e after :
  stored (employees_json w) = before ++ e :: after →
  (∀ e', e' ∈ before → emp_id e' ≠ id) →
  emp_id e = id →
  ∃ w', fetch_employee_by_id id w
        = (Return [("status_code", Int 200); ("employee", EmployeeV e)], w')
        ∧ disk w' = disk w.
Proof.
  intros Hsplit Hbefore Hid. unfold fetch_employee_by_id. rewrite bind_run.
  load_employees_in w w1 H1. rewrite Hsplit.
  rewrite (next_first (λ e, emp_id e = id)) by done.
  rewrite !bind_run. cbn. eexists. split; [reflexivity|]. apply H1.
Qed.

(** X6. [fetch_employee_by_id(emp_id)] answers 200 with the first stored
    record that has the identifier (also when a hand-edited file holds the
    identifier twice), raises 404 "Employee not found." when no stored
    record has it, and writes to neither file in both cases. *)
Theorem X6_fetch_by_id (w : world) (id : string) :
  (∀ before e after,
     stored (employees_json w) = before ++ e :: after →
     (∀ e', e' ∈ before → emp_id e' ≠ id) →
     emp_id e = id →
     ∃ w', fetch_employee_by_id id w
           = (Return [("status_code", Int 200); ("employee", EmployeeV e)],
              w')
           ∧ disk w' = disk w)
  ∧
  ((∀ e, e ∈ stored (employees_json w) → emp_id e ≠ id) →
   ∃ w', fetch_employee_by_id id w
         = (Raise {| status_code := 404; detail := "Employee not found." |},
            w')
         ∧ disk w' = disk w).
Proof.
  split.
  - intros before e after. apply fetch_employee_by_id_first.
  - intros Hno.
    destruct (fetch_employee_by_id_missing id w Hno) as (w' & Hrun & Hd & _).
    by exists w'.
Qed.

Lemma X6_fetch_by_id_witness :
  (∃ w', fetch_employee_by_id "E1"
           (mkWorld (Json [E2; E1; E1_again]) Absent [])
         = (Return [("status_code", Int 200); ("employee", EmployeeV E1)], w')
         ∧ disk w' = disk (mkWorld (Json [E2; E1; E1_again]) Absent []))
  ∧
  (∃ w', fetch_employee_by_id "E999" office
         = (Raise {| status_code := 404; detail := "Employee not found." |},
            w')
         ∧ disk w' = disk office).
Proof.
  split.
  - apply (proj1 (X6_fetch_by_id (mkWorld (Json [E2; E1; E1_again]) Absent [])
                    "E1") [E2] E1 [E1_again]).
    + reflexivity.
    + each_member.
    + reflexivity.
  - apply (proj2 (X6_fetch_by_id office "E999")). cbn. each_member.
Defined.



(** X8. The membership scans agree with the lookup.  In every state,
    [add_employee] raises exactly when [fetch_employee_by_id] on the same
    identifier answers, and [apply_employee_leave] raises exactly when
    [fetch_employee_by_id] on the leave's [employee_id] raises. *)
Theorem X8_scan_agrees_with_lookup (w : world) (employee : Employee)
    (leave : Leave) :
  ((∃ exc w', add_employee employee w = (Raise exc, w'))
   ↔ (∃ r w', fetch_employee_by_id (emp_id employee) w = (Return r, w')))
  ∧
  ((∃ exc w', apply_employee_leave leave w = (Raise exc, w'))
   ↔ (∃ exc w',
        fetch_employee_by_id (employee_id leave) w = (Raise exc, w'))).
Proof.
  split.
  - destruct (emp_id_cases (stored (employees_json w)) (emp_id employee))
      as [Hfresh|Hdup].
    + destruct (add_employee_fresh employee w Hfresh) as (w1 & Hrun1 & _).
      destruct (fetch_employee_by_id_missing _ w Hfresh) as (w2 & Hrun2 & _).
      rewrite Hrun1, Hrun2. split; intros (? & ? & ?); congruence.
    + destruct (add_employee_duplicate employee w Hdup) as (w1 & Hrun1 & _).
      destruct (fetch_employee_by_id_found _ w Hdup)
        as (e & w2 & Hrun2 & _).
      rewrite Hrun1, Hrun2. split; intros _; by eexists _, _.
  - destruct (emp_id_cases (stored (employees_json w)) (employee_id leave))
      as [Hno|Hex].
    + destruct (apply_employee_leave_missing leave w Hno) as (w1 & Hrun1 & _).
      destruct (fetch_employee_by_id_missing _ w Hno) as (w2 & Hrun2 & _).
      rewrite Hrun1, Hrun2. split; intros _; by eexists _, _.
    + destruct (apply_employee_leave_ok leave w Hex) as (w1 & Hrun1 & _).
      destruct (fetch_employee_by_id_found _ w Hex) as (e & w2 & Hrun2 & _).
      rewrite Hrun1, Hrun2. split; intros (? & ? & ?); congruence.
Qed.

(** ** Writing, then listing *)





(** X11. The last status wins: two successful updates of one leave
    identifier in a row leave the leave file exactly as the second update
    alone would have: the first record with the identifier has the second
    status as its [leave_status] and its other fields as before, every
    other record is as it was, and so is the employee file. *)
Theorem X11_update_twice (w : world) (id s1 s2 : string)
    (before : list Leave) (leave : Leave) (after : list Leave) :
  stored (leave_json w) = before ++ leave :: after →
  (∀ l, l ∈ before → leave_id l ≠ id) →
  leave_id leave = id →
  (∃ e, e ∈ stored (employees_json w) ∧ emp_id e = employee_id leave) →
  ∃ r1 w1 r2 w2 w2' leave',
    update_leave_status_info id s1 w = (Return r1, w1) ∧
    update_leave_status_info id s2 w1 = (Return r2, w2) ∧
    update_leave_status_info id s2 w = (Return r2, w2') ∧
    leave_json w2 = leave_json w2' ∧
    leave_json w2 = Json (before ++ leave' :: after) ∧
    leave_status leave' = s2 ∧
    leave_id leave' = leave_id leave ∧
    employee_id leave' = employee_id leave ∧
    leave_type leave' = leave_type leave ∧
    from_date leave' = from_date leave ∧
    to_date leave' = to_date leave ∧
    employees_json w2 = employees_json w.
Proof.
  intros Hsplit Hbefore Hid Hown.
  destruct (update_leave_status_info_ok id s1 w before leave after
              Hsplit Hbefore Hid Hown) as (w1 & Hrun1 & Hleaves1 & Hemps1).
  destruct (update_leave_status_info_ok id s2 w before leave after
              Hsplit Hbefore Hid Hown) as (w2' & Hrun2' & Hleaves2' & _).
  assert (stored (leave_json w1)
          = before ++ set_leave_status s1 leave :: after) as Hsplit1
    by (by rewrite Hleaves1).
  assert (∃ e, e ∈ stored (employees_json w1)
               ∧ emp_id e = employee_id (set_leave_status s1 leave)) as Hown1
    by (by rewrite Hemps1).
  destruct (update_leave_status_info_ok id s2 w1 before
              (set_leave_status s1 leave) after Hsplit1 Hbefore Hid Hown1)
    as (w2 & Hrun2 & Hleaves2 & Hemps2).
  eexists _, w1, _, w2, w2', (set_leave_status s2 leave).
  split; [exact Hrun1|]. split; [exact Hrun2|]. split; [exact Hrun2'|].
  split; [by rewrite Hleaves2, Hleaves2'|]. split; [exact Hleaves2|].
  split_and!; [done..|congruence].
Qed.

Lemma X11_update_twice_witness :
  ∃ r1 w1 r2 w2 w2' leave',
    update_leave_status_info "L1" "Approved" office = (Return r1, w1) ∧
    update_leave_status_info "L1" "Cancelled" w1 = (Return r2, w2) ∧
    update_leave_status_info "L1" "Cancelled" office = (Return r2, w2') ∧
    leave_json w2 = leave_json w2' ∧
    leave_json w2 = Json ([L2] ++ leave' :: [L1_twin]) ∧
    leave_status leave' = "Cancelled" ∧
    leave_id leave' = leave_id L1 ∧
    employee_id leave' = employee_id L1 ∧
    leave_type leave' = leave_type L1 ∧
    from_date leave' = from_date L1 ∧
    to_date leave' = to_date L1 ∧
    employees_json w2 = employees_json office.
Proof.
  apply (X11_update_twice office "L1" "Approved" "Cancelled"
           [L2] L1 [L1_twin]).
  - reflexivity.
  - each_member.
  - reflexivity.
  - exists E1. split; [|reflexivity]. cbn. left.
Defined.

(** ** Undecodable files and the log *)

(** X12. The first successful write replaces an undecodable file.  When
    [employees.json] cannot be decoded, [add_employee] accepts any
    employee and the file then holds that one record; when [leave.json]
    cannot be decoded, [apply_employee_leave] for an existing employee
    leaves a file holding that one leave.  Whatever the file held is
    gone. *)
Theorem X12_write_replaces_corrupt_file (w : world) (err : string)
    (employee : Employee) (leave : Leave) :
  (employees_json w = Corrupt err →
   ∃ w', add_employee employee w
         = (Return [("status_code", Int 200);
                    ("message", Str "Employee created successfully")], w') ∧
         employees_json w' = Json [employee] ∧
         leaves_log w'
         = leaves_log w
           ++ [(ERROR, "Error loading data from employees.json: " +:+ err);
               (INFO, "Employee created with emp_id=" +:+ emp_id employee)])
  ∧
  (leave_json w = Corrupt err →
   (∃ e, e ∈ stored (employees_json w) ∧ emp_id e = employee_id leave) →
   ∃ w', apply_employee_leave leave w
         = (Return [("status_code", Int 200);
                    ("message", Str "Leave applied, pending approval")], w') ∧
         leave_json w' = Json [leave] ∧
         (ERROR, "Error loading data from leave.json: " +:+ err)
           ∈ leaves_log w').
Proof.
  split.
  - intros Hcorrupt. unfold add_employee, load_data.
    rewrite !bind_run. cbn. rewrite Hcorrupt. rewrite !bind_run. cbn.
    eexists. split_and!; [reflexivity|reflexivity|].
    cbn. by rewrite <- !app_assoc.
  - intros Hcorrupt Hown%scan_emp_id_true. unfold apply_employee_leave.
    rewrite bind_run. load_employees_in w w1 H1. rewrite Hown. cbn.
    unfold load_data. rewrite !bind_run. cbn.
    rewrite (only_logged_leaves _ _ H1), Hcorrupt. rewrite !bind_run. cbn.
    eexists. split_and!; [reflexivity|reflexivity|].
    cbn. rewrite !elem_of_app. left. right. by left.
Qed.

Lemma X12_write_replaces_corrupt_file_witness :
  (∃ w', add_employee E1 garbled
         = (Return [("status_code", Int 200);
                    ("message", Str "Employee created successfully")], w') ∧
         employees_json w' = Json [E1] ∧
         leaves_log w'
         = leaves_log garbled
           ++ [(ERROR, "Error loading data from employees.json: "
                       +:+ "Expecting ',' delimiter: line 3 column 5");
               (INFO, "Employee created with emp_id=" +:+ emp_id E1)])
  ∧
  (∃ w', apply_employee_leave L1
           (mkWorld (Json [E1]) (Corrupt "Extra data") [])
         = (Return [("status_code", Int 200);
                    ("message", Str "Leave applied, pending approval")], w') ∧
         leave_json w' = Json [L1] ∧
         (ERROR, "Error loading data from leave.json: " +:+ "Extra data")
           ∈ leaves_log w').
Proof.
  split.
  - apply (proj1 (X12_write_replaces_corrupt_file garbled
                    "Expecting ',' delimiter: line 3 column 5" E1 L1)).
    reflexivity.
  - apply (proj2 (X12_write_replaces_corrupt_file
                    (mkWorld (Json [E1]) (Corrupt "Extra data") [])
                    "Extra data" E1 L1)).
    + reflexivity.
    + exists E1. split; [|reflexivity]. cbn. left.
Defined.

(** X13. The log only grows, and it tells failures from successes: every
    route appends at least one line to the lines already there, and the
    last line it appends is an ERROR line exactly when the route raised. *)
Theorem X13_log_tells_failure (r : request) (w : world) :
  ∃ lines lv msg,
    leaves_log (snd (serve r w)) = leaves_log w ++ lines ++ [(lv, msg)] ∧
    (lv = ERROR ↔ ∃ exc, fst (serve r w) = Raise exc).
Proof.
  destruct r as [employee| |id|leave|id|id status]; unfold serve.
  - unfold add_employee. rewrite bind_run.
    load_employees_in w w1 H1. destruct H1 as [_ [lines Hl]].
    destruct (any _ _); repeat (rewrite bind_run; cbn); exists lines; eexists _, _.
    + rewrite Hl, <- app_assoc. split; [reflexivity|]. split; by eauto.
    + rewrite Hl, <- app_assoc. split; [reflexivity|].
      split; [done|by intros [? ?]].
  - unfold fetch_all_employees. rewrite bind_run.
    load_employees_in w w1 H1. destruct H1 as [_ [lines Hl]].
    destruct (stored _); repeat (rewrite bind_run; cbn); exists lines; eexists _, _;
      rewrite Hl, <- app_assoc; (split; [reflexivity|]);
      (split; [done|by intros [? ?]]).
  - unfold fetch_employee_by_id. rewrite bind_run.
    load_employees_in w w1 H1. destruct H1 as [_ [lines Hl]].
    destruct (next _ _) as [[i e]|]; repeat (rewrite bind_run; cbn);
      exists lines; eexists _, _.
    + rewrite Hl, <- app_assoc. split; [reflexivity|].
      split; [done|by intros [? ?]].
    + rewrite Hl, <- app_assoc. split; [reflexivity|]. split; by eauto.
  - unfold apply_employee_leave. rewrite bind_run.
    load_employees_in w w1 H1. destruct H1 as [_ [lines1 Hl1]].
    destruct (any _ _); cbn.
    + rewrite bind_run. load_leaves_in w1 w2 H2.
      destruct H2 as [_ [lines2 Hl2]]. repeat (rewrite bind_run; cbn).
      exists (lines1 ++ lines2). eexists _, _.
      rewrite Hl2, Hl1, <- !app_assoc. split; [reflexivity|].
      split; [done|by intros [? ?]].
    + repeat (rewrite bind_run; cbn). exists lines1. eexists _, _.
      rewrite Hl1, <- app_assoc. split; [reflexivity|]. split; by eauto.
  - unfold fetch_employee_leaves. rewrite bind_run.
    load_leaves_in w w1 H1. destruct H1 as [_ [lines Hl]].
    repeat (rewrite bind_run; cbn). exists lines. eexists _, _.
    rewrite Hl, <- app_assoc. split; [reflexivity|].
    split; [done|by intros [? ?]].
  - unfold update_leave_status_info. rewrite bind_run.
    load_leaves_in w w1 H1. destruct H1 as [_ [lines1 Hl1]].
    rewrite bind_run. load_employees_in w1 w2 H2.
    destruct H2 as [_ [lines2 Hl2]].
    destruct (next _ _) as [[i leave]|];
      [destruct (next _ _) as [[j e]|]|];
      repeat (rewrite bind_run; cbn); exists (lines1 ++ lines2); eexists _, _;
      rewrite Hl2, Hl1, <- !app_assoc; (split; [reflexivity|]).
    + split; [done|by intros [? ?]].
    + split; by eauto.
    + split; by eauto.
Qed.

(** ** Lookups under the invariants *)

(** X14. [fetch_employee_leaves] does not check that the employee exists.
    For an identifier that no stored employee has, in a state where every
    leave has its employee, it answers 200 with no leaves and count 0,
    while [fetch_employee_by_id] on the same identifier raises 404. *)
Theorem X14_leaves_of_unknown_employee (w : world) (id : string) :
  (∀ l, l ∈ stored (leave_json w) →
        ∃ e, e ∈ stored (employees_json w) ∧ emp_id e = employee_id l) →
  (∀ e, e ∈ stored (employees_json w) → emp_id e ≠ id) →
  ∃ w1 w2,
    fetch_employee_leaves id w
    = (Return [("status_code", Int 200);
               ("total_leaves", Int 0);
               ("leaves", LeavesV [])], w1) ∧
    fetch_employee_by_id id w
    = (Raise {| status_code := 404; detail := "Employee not found." |}, w2).
Proof.
  intros Hown Hno.
  destruct (fetch_employee_leaves_run id w) as (w1 & Hrun1 & _).
  destruct (fetch_employee_by_id_missing id w Hno) as (w2 & Hrun2 & _).
  exists w1, w2. split; [|exact Hrun2]. rewrite Hrun1.
  assert (filter (λ l, employee_id l = id) (stored (leave_json w)) = [])
    as ->; [|done].
  apply elem_of_nil_inv. intros l [Hid Hl]%list_elem_of_filter.
  destruct (Hown l Hl) as (e & He & Heid). apply (Hno e He). congruence.
Qed.

Lemma X14_leaves_of_unknown_employee_witness :
  ∃ w1 w2,
    fetch_employee_leaves "E999" office
    = (Return [("status_code", Int 200);
               ("total_leaves", Int 0);
               ("leaves", LeavesV [])], w1) ∧
    fetch_employee_by_id "E999" office
    = (Raise {| status_code := 404; detail := "Employee not found." |}, w2).
Proof.
  apply (X14_leaves_of_unknown_employee office "E999").
  - cbn. intros l Hl.
    repeat (apply elem_of_cons in Hl as [->|Hl]);
      [exists E2|exists E1|exists E1|by apply elem_of_nil in Hl];
      (split; [cbn; first [left|right; left]|reflexivity]).
  - cbn. each_member.
Defined.

(** X15. While employee identifiers are unique, every stored employee can
    be fetched: [fetch_employee_by_id] on the [emp_id] of a stored record
    answers that very record. *)
Theorem X15_fetch_every_stored_employee (w : world) (e : Employee) :
  NoDup (emp_id <$> stored (employees_json w)) →
  e ∈ stored (employees_json w) →
  ∃ w', fetch_employee_by_id (emp_id e) w
        = (Return [("status_code", Int 200); ("employee", EmployeeV e)], w').
Proof.
  intros Huniq He.
  apply list_elem_of_split in He as (before & after & Hsplit).
  rewrite Hsplit, fmap_app, fmap_cons in Huniq.
  apply NoDup_app in Huniq as (_ & Hdisj & _).
  assert (∀ e', e' ∈ before → emp_id e' ≠ emp_id e) as Hbefore.
  { intros e' He' Heq. apply (Hdisj (emp_id e')).
    - apply list_elem_of_fmap. by exists e'.
    - rewrite Heq. by left. }
  destruct (fetch_employee_by_id_first (emp_id e) w before e after
              Hsplit Hbefore eq_refl) as (w' & Hrun & _).
  by exists w'.
Qed.

Lemma X15_fetch_every_stored_employee_witness :
  ∃ w', fetch_employee_by_id (emp_id E2) office
        = (Return [("status_code", Int 200); ("employee", EmployeeV E2)], w').
Proof.
  apply (X15_fetch_every_stored_employee office E2).
  - cbn. apply (bool_decide_unpack (NoDup ["E1"; "E2"])). by compute.
  - cbn. right. left.
Defined.
